(** * gin-auth: scope reconciliation, approval ledger and token exchange

    A shallow embedding of the OAuth core of gin-auth:
    - [data/client.go]: [getClient], [CheckScope], [ScopeProvided],
      [ApprovalForAccount], [Approve];
    - [web/oauth.go]: the bearer handler [oauth.ServeHTTP], [OAuthToken],
      [Approve], [finishCodeRequest], [finishImplicitRequest], [Token].

    The SQL database is an explicit value of type [Database]; every function
    of the source that touches it takes the database and returns the new one.
    A failing [database.Select]/[database.Get] other than [sql.ErrNoRows] is an
    infrastructure failure and is not part of the model. *)

From stdpp Require Import gmap strings list.
From Stdlib Require Import ZArith.

Set Warnings "-clear-no-such-hyp".

Local Open Scope Z_scope.
Local Open Scope string_scope.

(** ** Package util *)

Module util.

(** Modelled from the spec: [util.StringSet] (package util is not among the
    sources).  "A set of opaque string names, unordered, deduplicated", with
    union, intersection, difference, superset, length and membership. *)
Abbreviation StringSet := (gset string).

Definition NewStringSet (strs : list string) : StringSet := list_to_set strs.

Definition Len (s : StringSet) : nat := size s.

Definition Contains (s : StringSet) (x : string) : bool := bool_decide (x ∈ s).

Definition IsSuperset (s other : StringSet) : bool := bool_decide (other ⊆ s).

Definition Union (s other : StringSet) : StringSet := s ∪ other.

Definition Intersect (s other : StringSet) : StringSet := s ∩ other.

Definition Difference (s other : StringSet) : StringSet := s ∖ other.

End util.

(** ** Package data *)

Module data.
Import util.

(** [sql.NullString]: [None] is [Valid = false]. *)
Abbreviation NullString := (option string).

(** The [String] field of a [sql.NullString]; empty when not valid. *)
Definition NullString_String (s : NullString) : string := default "" s.

(** [type Client struct] of client.go, with the [ScopeWhitelist] field that
    oauth.go reads. Times are seconds. *)
Record Client := mkClient {
  Client_UUID : string;
  Client_Name : string;
  Client_Secret : string;
  ScopeProvidedMap : gmap string string;
  RedirectURIs : StringSet;
  ScopeWhitelist : StringSet;
  Client_CreatedAt : Z;
  Client_UpdatedAt : Z
}.

(** A row of table [ClientScopeProvided (clientUUID, name, description)]. *)
Record ScopeRow := mkScopeRow {
  Row_clientUUID : string;
  Row_Name : string;
  Row_Description : string
}.

(** The fields of [ClientApproval] that [Approve] sets. *)
Record ClientApproval := mkClientApproval {
  Approval_ClientUUID : string;
  Approval_AccountUUID : string;
  Approval_Scope : StringSet
}.

(** The fields of [GrantRequest] that client.go and oauth.go use. *)
Record GrantRequest := mkGrantRequest {
  Request_Token : string;
  GrantType : string;
  State : string;
  Code : NullString;
  ScopeRequested : StringSet;
  RedirectURI : string;
  Request_ClientUUID : string;
  Request_AccountUUID : NullString
}.

Record AccessToken := mkAccessToken {
  Access_Token : string;
  Access_Scope : StringSet;
  Expires : Z;
  Access_ClientUUID : string;
  Access_AccountUUID : NullString
}.

Record RefreshToken := mkRefreshToken {
  Refresh_Token : string;
  Refresh_Scope : StringSet;
  Refresh_ClientUUID : string;
  Refresh_AccountUUID : string
}.

(** What oauth.go needs of an account. [PWHash] stands for the stored
    password hash that [VerifyPassword] checks against. *)
Record Account := mkAccount {
  Account_UUID : string;
  Login : string;
  PWHash : string
}.

(** The tables. [Clients], [ClientScopeProvided], [GrantRequests] and
    [Accounts] are row lists, because they are read through a column that is
    not the primary key; the others are maps on their primary key.
    [ClientApprovals] maps the pair (clientUUID, accountUUID) to the scope
    column of the row. *)
Record Database := mkDatabase {
  Clients : list Client;
  ClientScopeProvided : list ScopeRow;
  ClientApprovals : gmap (string * string) StringSet;
  GrantRequests : list GrantRequest;
  AccessTokens : gmap string AccessToken;
  RefreshTokens : gmap string RefreshToken;
  Accounts : list Account
}.

Definition set_ClientApprovals (f : gmap (string * string) StringSet → gmap (string * string) StringSet)
  (db : Database) : Database :=
  mkDatabase (Clients db) (ClientScopeProvided db) (f (ClientApprovals db))
    (GrantRequests db) (AccessTokens db) (RefreshTokens db) (Accounts db).

Definition set_GrantRequests (f : list GrantRequest → list GrantRequest) (db : Database) : Database :=
  mkDatabase (Clients db) (ClientScopeProvided db) (ClientApprovals db)
    (f (GrantRequests db)) (AccessTokens db) (RefreshTokens db) (Accounts db).

Definition set_AccessTokens (f : gmap string AccessToken → gmap string AccessToken) (db : Database) : Database :=
  mkDatabase (Clients db) (ClientScopeProvided db) (ClientApprovals db)
    (GrantRequests db) (f (AccessTokens db)) (RefreshTokens db) (Accounts db).

Definition set_RefreshTokens (f : gmap string RefreshToken → gmap string RefreshToken) (db : Database) : Database :=
  mkDatabase (Clients db) (ClientScopeProvided db) (ClientApprovals db)
    (GrantRequests db) (AccessTokens db) (f (RefreshTokens db)) (Accounts db).

(** Go's [error]: [None] is [nil]. *)
Abbreviation error := (option string).

(** *** client.go *)

Definition with_ScopeProvidedMap (c : Client) (m : gmap string string) : Client :=
  mkClient (Client_UUID c) (Client_Name c) (Client_Secret c) m (RedirectURIs c)
    (ScopeWhitelist c) (Client_CreatedAt c) (Client_UpdatedAt c).

(** [getClient(q, parameter)]: [q] selects the client row ([sel] is its WHERE
    clause); the second query collects the rows of [ClientScopeProvided] with
    the client's uuid into [ScopeProvidedMap], starting from an empty map. *)
Definition getClient (db : Database) (sel : Client → bool) : option Client :=
  match find sel (Clients db) with
  | None => None
  | Some client =>
      let scope := filter (λ s, Row_clientUUID s = Client_UUID client) (ClientScopeProvided db) in
      Some (with_ScopeProvidedMap client
              (foldl (λ m s, <[Row_Name s := Row_Description s]> m) ∅ scope))
  end.

Definition GetClient (db : Database) (uuid : string) : option Client :=
  getClient db (λ c, bool_decide (Client_UUID c = uuid)).

Definition GetClientByName (db : Database) (name : string) : option Client :=
  getClient db (λ c, bool_decide (Client_Name c = name)).

Definition CheckScope (db : Database) (scope : StringSet) : bool :=
  if decide (Len scope = 0%nat) then false
  else
    let check := map Row_Name (ClientScopeProvided db) in
    let global := NewStringSet check in
    IsSuperset global scope.

(** [ScopeProvided]: the keys of [ScopeProvidedMap] as a set. *)
Definition ScopeProvided (client : Client) : StringSet :=
  NewStringSet (map fst (map_to_list (ScopeProvidedMap client))).

Definition ApprovalForAccount (db : Database) (client : Client) (accountUUID : string)
  : option ClientApproval :=
  mkClientApproval (Client_UUID client) accountUUID
    <$> ClientApprovals db !! (Client_UUID client, accountUUID).

(** Modelled from the spec: [ClientApproval.Create] and [ClientApproval.Update]
    (client_approval.go is not among the sources).  The record is "keyed by
    (client id, account id) pair (at most one per pair)"; the store offers
    "create-if-absent" and "update-in-place". *)
Definition Approval_Create (approval : ClientApproval) (db : Database) : error * Database :=
  let key := (Approval_ClientUUID approval, Approval_AccountUUID approval) in
  match ClientApprovals db !! key with
  | Some _ => (Some "duplicate key value violates unique constraint", db)
  | None => (None, set_ClientApprovals (insert key (Approval_Scope approval)) db)
  end.

Definition Approval_Update (approval : ClientApproval) (db : Database) : error * Database :=
  let key := (Approval_ClientUUID approval, Approval_AccountUUID approval) in
  match ClientApprovals db !! key with
  | Some _ => (None, set_ClientApprovals (insert key (Approval_Scope approval)) db)
  | None => (None, db)
  end.

Definition with_Approval_Scope (a : ClientApproval) (s : StringSet) : ClientApproval :=
  mkClientApproval (Approval_ClientUUID a) (Approval_AccountUUID a) s.

Definition Approve (client : Client) (accountUUID : string) (scope : StringSet)
  (db : Database) : error * Database :=
  if negb (CheckScope db scope) then (Some "Invalid scope", db)
  else
    match ApprovalForAccount db client accountUUID with
    | Some approval =>
        if negb (IsSuperset (Approval_Scope approval) scope) then
          let approval := with_Approval_Scope approval (Union (Approval_Scope approval) scope) in
          Approval_Update approval db
        else (None, db)
    | None =>
        let approval := mkClientApproval (Client_UUID client) accountUUID scope in
        Approval_Create approval db
    end.

(** *** grant_request.go, access_token.go, refresh_token.go, account.go

    These files are not among the sources; oauth.go calls into them. *)

(** Modelled from the spec: [GetGrantRequest] and [GetGrantRequestByCode],
    "get-by-key" on the request token and "get-by-secondary-key" on the
    exchange code. *)
Definition GetGrantRequest (db : Database) (token : string) : option GrantRequest :=
  find (λ r, bool_decide (Request_Token r = token)) (GrantRequests db).

Definition GetGrantRequestByCode (db : Database) (code : string) : option GrantRequest :=
  find (λ r, bool_decide (Code r = Some code)) (GrantRequests db).

(** Modelled from the spec: [GrantRequest.Delete], "delete-by-key". *)
Definition Request_Delete (req : GrantRequest) (db : Database) : error * Database :=
  (None, set_GrantRequests (filter (λ r, Request_Token r ≠ Request_Token req)) db).

(** Modelled from the spec: [GrantRequest.Update], "update-in-place" of the
    row with the request's token.  The exchange code is a secondary key: an
    update that would give two requests the same code is a persistence
    conflict. *)
Definition Request_Update (req : GrantRequest) (db : Database) : error * Database :=
  if bool_decide (Exists (λ r, Request_Token r ≠ Request_Token req
                               ∧ is_Some (Code req) ∧ Code r = Code req) (GrantRequests db))
  then (Some "duplicate key value violates unique constraint", db)
  else (None, set_GrantRequests
                (map (λ r, if bool_decide (Request_Token r = Request_Token req) then req else r)) db).

(** Modelled from the spec: [GrantRequest.Client], the client the request
    belongs to. *)
Definition Request_Client (db : Database) (req : GrantRequest) : option Client :=
  GetClient db (Request_ClientUUID req).

(** Modelled from the spec: [GrantRequest.IsApproved], "true iff
    (request.scope − client.whitelist) is empty, or the approval ledger entry
    for (client, account) is a superset of that difference". *)
Definition IsApproved (db : Database) (req : GrantRequest) : bool :=
  match Request_Client db req with
  | None => false
  | Some client =>
      let required := Difference (ScopeRequested req) (ScopeWhitelist client) in
      if decide (Len required = 0%nat) then true
      else
        match Request_AccountUUID req with
        | None => false
        | Some account =>
            match ApprovalForAccount db client account with
            | Some approval => IsSuperset (Approval_Scope approval) required
            | None => false
            end
        end
  end.

(** The zero value of [time.Time], which a struct literal without [Expires]
    leaves in the field. *)
Definition zero_time : Z := 0.

(** Modelled from the spec: [AccessToken.Create], "create-if-absent"; "a
    persistence conflict on create is surfaced as an error".  The record is
    stored as it is given; how the store fills in a zero [Expires] is not
    modelled, and no statement below depends on it. *)
Definition Access_Create (tok : AccessToken) (db : Database) : error * Database :=
  match AccessTokens db !! Access_Token tok with
  | Some _ => (Some "duplicate key value violates unique constraint", db)
  | None => (None, set_AccessTokens (insert (Access_Token tok) tok) db)
  end.

(** Modelled from the spec: [GetAccessToken], "resolve(tokenString) →
    AccessToken or not found, where not found is also returned for a token
    past its expiry"; "a token retrieved at or after its expiry timestamp is
    treated as nonexistent". *)
Definition GetAccessToken (now : Z) (db : Database) (token : string) : option AccessToken :=
  match AccessTokens db !! token with
  | Some tok => if Z.ltb now (Expires tok) then Some tok else None
  | None => None
  end.

(** Modelled from the spec: [GetRefreshToken], [RefreshToken.Create] and
    [RefreshToken.Delete]. *)
Definition GetRefreshToken (db : Database) (token : string) : option RefreshToken :=
  RefreshTokens db !! token.

Definition Refresh_Create (tok : RefreshToken) (db : Database) : error * Database :=
  match RefreshTokens db !! Refresh_Token tok with
  | Some _ => (Some "duplicate key value violates unique constraint", db)
  | None => (None, set_RefreshTokens (insert (Refresh_Token tok) tok) db)
  end.

Definition Refresh_Delete (tok : RefreshToken) (db : Database) : error * Database :=
  (None, set_RefreshTokens (delete (Refresh_Token tok)) db).

(** Modelled from the spec: [GrantRequest.ExchangeCodeForTokens], "mint one
    AccessToken and one RefreshToken scoped to request.scope, bound to
    request.accountId/request.clientId; delete the GrantRequest (code is
    single-use); return both tokens".  [access] and [refresh] are the two
    fresh token strings it draws; on a persistence conflict nothing is
    changed and the error is returned. *)
Definition ExchangeCodeForTokens (access refresh : string) (req : GrantRequest) (db : Database)
  : (string * string * error) * Database :=
  let accessTok := mkAccessToken access (ScopeRequested req) zero_time (Request_ClientUUID req)
                     (Request_AccountUUID req) in
  let refreshTok := mkRefreshToken refresh (ScopeRequested req) (Request_ClientUUID req)
                      (NullString_String (Request_AccountUUID req)) in
  match Access_Create accessTok db with
  | (Some err, _) => (("", "", Some err), db)
  | (None, db1) =>
      match Refresh_Create refreshTok db1 with
      | (Some err, _) => (("", "", Some err), db)
      | (None, db2) =>
          match Request_Delete req db2 with
          | (Some err, _) => (("", "", Some err), db)
          | (None, db3) => ((access, refresh, None), db3)
          end
      end
  end.

(** Modelled from the spec: [GetAccountByLogin], "existence lookup by login
    name". *)
Definition GetAccountByLogin (db : Database) (login : string) : option Account :=
  find (λ a, bool_decide (Login a = login)) (Accounts db).

End data.

(** ** Go's package strings, as far as oauth.go uses it *)

Module strings.

Definition space : Ascii.ascii := Ascii.ascii_of_nat 32.

(** [strings.HasPrefix(s, prefix)] *)
Definition HasPrefix (s prefix : string) : bool := String.prefix prefix s.

(** The slice expression [s[n:]] *)
Fixpoint slice_from (n : nat) (s : string) : string :=
  match n, s with
  | O, _ => s
  | S n', String _ rest => slice_from n' rest
  | S _, EmptyString => EmptyString
  end.

Fixpoint TrimLeft_space (s : string) : string :=
  match s with
  | String c rest => if Ascii.eqb c space then TrimLeft_space rest else s
  | EmptyString => EmptyString
  end.

Fixpoint TrimRight_space (s : string) : string :=
  match s with
  | String c rest =>
      match TrimRight_space rest with
      | EmptyString => if Ascii.eqb c space then EmptyString else String c EmptyString
      | rest' => String c rest'
      end
  | EmptyString => EmptyString
  end.

(** [strings.Trim(s, " ")] *)
Definition Trim_space (s : string) : string := TrimRight_space (TrimLeft_space s).

(** [strings.Split(s, " ")]: the pieces between the spaces; never empty. *)
Fixpoint Split_space (s : string) : list string :=
  match s with
  | EmptyString => [EmptyString]
  | String c rest =>
      if Ascii.eqb c space then EmptyString :: Split_space rest
      else
        match Split_space rest with
        | piece :: pieces => String c piece :: pieces
        | [] => [String c EmptyString]
        end
  end.

End strings.

(** [util.RandomToken] and [Account.VerifyPassword] are not among the
    sources; the model takes them as parameters: the token string of the n-th
    draw of the random source, and the password check of an account. *)
Class Oracle := mkOracle {
  RandomToken : nat → string;
  VerifyPassword : data.Account → string → bool
}.

(** ** Package web (oauth.go) *)

Module web.
Import util data.

(** [type OAuthInfo struct] *)
Record OAuthInfo := mkOAuthInfo {
  Match : StringSet;
  Token_ : AccessToken
}.

(** An [*http.Request]: [Ptr] is the pointer, the key of [tokens.store]. *)
Record Request := mkRequest {
  Ptr : N;
  Header : gmap string string
}.

(** [r.Header.Get(key)]: the empty string when the header is absent. *)
Definition Header_Get (r : Request) (key : string) : string := default "" (Header r !! key).

(** What a handler run can see and change: the database, the package
    variable [tokens.store], the clock and the number of random tokens drawn
    so far. *)
Record World := mkWorld {
  db : Database;
  tokens_store : gmap N OAuthInfo;
  now : Z;
  Draws : nat
}.

Definition with_db (w : World) (d : Database) : World :=
  mkWorld d (tokens_store w) (now w) (Draws w).

Definition with_store (w : World) (s : gmap N OAuthInfo) : World :=
  mkWorld (db w) s (now w) (Draws w).

(** [util.RandomToken()] *)
Definition util_RandomToken `{Oracle} (w : World) : string * World :=
  (RandomToken (Draws w), mkWorld (db w) (tokens_store w) (now w) (S (Draws w))).

(** [type tokenResponse struct]. [Scope] is kept as the set whose names the
    source joins with spaces. *)
Record tokenResponse := mkTokenResponse {
  TokenType : string;
  Scope : StringSet;
  AccessToken_ : string;
  RefreshToken_ : option string
}.

(** Where a redirect of [finishCodeRequest] or [finishImplicitRequest] goes:
    the parts the source formats into the URL. *)
Inductive Location :=
  | CodeLocation (redirectURI : string) (scope : StringSet) (state code : string)
  | ImplicitLocation (redirectURI : string) (scope : StringSet) (state access_token : string).

(** What a handler writes to its [http.ResponseWriter]. *)
Inductive Response :=
  | ErrorJSON (msg : string) (status : Z)
  | ErrorHTML (msg : string) (status : Z)
  | Redirect (loc : Location) (status : Z)
  | TokenJSON (response : tokenResponse)
  | Body (content : string) (status : Z).

Definition StatusFound : Z := 302.
Definition StatusBadRequest : Z := 400.
Definition StatusUnauthorized : Z := 401.
Definition StatusNotFound : Z := 404.
Definition StatusInternalServerError : Z := 500.

(** How a call ends: it returns, or it panics. *)
Inductive Result (A : Type) :=
  | Return (a : A)
  | Panic (msg : string).
Arguments Return {A} a.
Arguments Panic {A} msg.

(** [http.Handler] *)
Definition Handler := Request → World → Result Response * World.

(** [OAuthToken(r)] *)
Definition OAuthToken (r : Request) (w : World) : option OAuthInfo :=
  tokens_store w !! Ptr r.

(** [type oauth struct] *)
Record oauth := mkOauth {
  Permissive : bool;
  scope : StringSet;
  handler : Handler
}.

Definition OAuthHandler (scope : list string) (handler : Handler) : oauth :=
  mkOauth false (NewStringSet scope) handler.

Definition OAuthHandlerPermissive (handler : Handler) : oauth :=
  mkOauth true (NewStringSet []) handler.

(** The tail of [ServeHTTP] once a token is accepted: the entry is stored,
    the deferred function is registered, the inner handler runs, and the
    deferred function deletes the entry when [ServeHTTP] is left, by return
    or by panic. *)
Definition serve_bound (o : oauth) (r : Request) (match_ : StringSet) (token : AccessToken)
  (w : World) : Result Response * World :=
  let w1 := with_store w (<[Ptr r := mkOAuthInfo match_ token]> (tokens_store w)) in
  let '(res, w2) := handler o r w1 in
  (res, with_store w2 (delete (Ptr r) (tokens_store w2))).

(** [func (o oauth) ServeHTTP(w, r)] *)
Definition ServeHTTP (o : oauth) (r : Request) (w : World) : Result Response * World :=
  let tokenStr := Header_Get r "Authorization" in
  if negb (String.eqb tokenStr "") && strings.HasPrefix tokenStr "Bearer " then
    let tokenStr := strings.Trim_space (strings.slice_from 6 tokenStr) in
    match GetAccessToken (now w) (db w) tokenStr with
    | Some token =>
        let match_ := Access_Scope token in
        if negb (Permissive o) then
          let match_ := Intersect match_ (scope o) in
          if Nat.ltb (Len match_) 1 then
            (Return (ErrorJSON "Insufficient scope" StatusUnauthorized), w)
          else serve_bound o r match_ token w
        else serve_bound o r match_ token w
    | None =>
        if negb (Permissive o) then
          (Return (ErrorJSON "Invalid bearer token" StatusUnauthorized), w)
        else handler o r w
    end
  else if negb (Permissive o) then
    (Return (ErrorJSON "No bearer token" StatusUnauthorized), w)
  else handler o r w.

Definition with_Code (req : GrantRequest) (code : NullString) : GrantRequest :=
  mkGrantRequest (Request_Token req) (GrantType req) (State req) code (ScopeRequested req)
    (RedirectURI req) (Request_ClientUUID req) (Request_AccountUUID req).

(** [finishCodeRequest] *)
Definition finishCodeRequest `{Oracle} (request : GrantRequest) (w : World)
  : Result Response * World :=
  let '(code, w) := util_RandomToken w in
  let request := with_Code request (Some code) in
  match Request_Update request (db w) with
  | (Some err, _) => (Panic err, w)
  | (None, db1) =>
      (Return (Redirect (CodeLocation (RedirectURI request) (ScopeRequested request)
                           (State request) (NullString_String (Code request))) StatusFound),
       with_db w db1)
  end.

(** [finishImplicitRequest] *)
Definition finishImplicitRequest `{Oracle} (request : GrantRequest) (w : World)
  : Result Response * World :=
  match Request_Delete request (db w) with
  | (Some err, _) => (Panic err, w)
  | (None, db1) =>
      let '(tok, w) := util_RandomToken (with_db w db1) in
      let token := mkAccessToken tok (ScopeRequested request) zero_time
                     (Request_ClientUUID request) (Request_AccountUUID request) in
      match Access_Create token (db w) with
      | (Some err, _) => (Panic err, w)
      | (None, db2) =>
          (Return (Redirect (ImplicitLocation (RedirectURI request) (Access_Scope token)
                               (State request) (Access_Token token)) StatusFound),
           with_db w db2)
      end
  end.

(** The form that [Approve] reads with [util.ReadFormIntoStruct]. *)
Record ApproveForm := mkApproveForm {
  Form_Client : string;
  Form_RequestID : string;
  Form_Scope : list string
}.

(** [func Approve(w, r)] *)
Definition Approve `{Oracle} (param : ApproveForm) (w : World) : Result Response * World :=
  match GetGrantRequest (db w) (Form_RequestID param) with
  | None => (Return (ErrorHTML "Grant request does not exist" StatusNotFound), w)
  | Some request =>
      if negb (bool_decide (is_Some (Request_AccountUUID request))) then
        (Return (ErrorHTML "Grant request is not authenticated" StatusUnauthorized), w)
      else
        match Request_Client (db w) request with
        | None => (Panic "Invalid client", w)
        | Some client =>
            let scopeApproved := NewStringSet (Form_Scope param) in
            let scopeRequired := Difference (ScopeRequested request) (ScopeWhitelist client) in
            if negb (IsSuperset scopeApproved scopeRequired) then
              (Return (ErrorHTML "Requested scope was not approved" StatusUnauthorized), w)
            else
              match data.Approve client (NullString_String (Request_AccountUUID request))
                      (ScopeRequested request) (db w) with
              | (Some err, db1) => (Panic err, with_db w db1)
              | (None, db1) =>
                  let w := with_db w db1 in
                  if negb (IsApproved (db w) request) then
                    (Panic "Requested scope should be approved but was not", w)
                  else if bool_decide (GrantType request = "code") then
                    finishCodeRequest request w
                  else finishImplicitRequest request w
              end
        end
  end.

(** The form that [Token] reads with [util.ReadFormIntoStruct]. *)
Record TokenBody := mkTokenBody {
  Body_GrantType : string;
  Body_ClientId : string;
  Body_ClientSecret : string;
  Body_Scope : string;
  Body_Code : string;
  Body_RefreshToken : string;
  Body_Username : string;
  Body_Password : string
}.

(** The request of [Token]: the result of [r.BasicAuth()] and the result of
    [util.ReadFormIntoStruct] (an error, or the decoded body). *)
Record TokenRequest := mkTokenRequest {
  BasicAuth : string * string * bool;
  Form : string + TokenBody
}.

(** [case "authorization_code":] *)
Definition Token_authorization_code `{Oracle} (client : Client) (body : TokenBody) (w : World)
  : Response * World :=
  match GetGrantRequestByCode (db w) (Body_Code body) with
  | None => (ErrorJSON "Invalid grant code" StatusUnauthorized, w)
  | Some request =>
      if bool_decide (Request_ClientUUID request ≠ Client_UUID client) then
        let '(_, db1) := Request_Delete request (db w) in
        (ErrorJSON "Invalid grant code" StatusUnauthorized, with_db w db1)
      else
        let '(access, w) := util_RandomToken w in
        let '(refresh, w) := util_RandomToken w in
        match ExchangeCodeForTokens access refresh request (db w) with
        | ((_, _, Some err), db1) =>
            (ErrorJSON "Invalid grant code" StatusUnauthorized, with_db w db1)
        | ((access, refresh, None), db1) =>
            (TokenJSON (mkTokenResponse "Bearer" (ScopeRequested request) access (Some refresh)),
             with_db w db1)
        end
  end.

(** [case "refresh_token":] *)
Definition Token_refresh_token `{Oracle} (client : Client) (body : TokenBody) (w : World)
  : Response * World :=
  match GetRefreshToken (db w) (Body_RefreshToken body) with
  | None => (ErrorJSON "Invalid refresh token" StatusUnauthorized, w)
  | Some refresh =>
      if bool_decide (Refresh_ClientUUID refresh ≠ Client_UUID client) then
        let '(_, db1) := Refresh_Delete refresh (db w) in
        (ErrorJSON "Invalid refresh token" StatusUnauthorized, with_db w db1)
      else
        let '(tok, w) := util_RandomToken w in
        let access := mkAccessToken tok (Refresh_Scope refresh) zero_time
                        (Refresh_ClientUUID refresh) (Some (Refresh_AccountUUID refresh)) in
        match Access_Create access (db w) with
        | (Some err, db1) => (ErrorJSON err StatusInternalServerError, with_db w db1)
        | (None, db1) =>
            (TokenJSON (mkTokenResponse "Bearer" (Refresh_Scope refresh) (Access_Token access) None),
             with_db w db1)
        end
  end.

(** [case "password":] *)
Definition Token_password `{Oracle} (client : Client) (body : TokenBody) (w : World)
  : Response * World :=
  match GetAccountByLogin (db w) (Body_Username body) with
  | None => (ErrorJSON "Wrong username or password" StatusUnauthorized, w)
  | Some account =>
      if negb (VerifyPassword account (Body_Password body)) then
        (ErrorJSON "Wrong username or password" StatusUnauthorized, w)
      else
        let scope := NewStringSet (strings.Split_space (Body_Scope body)) in
        if bool_decide (Len scope = 0%nat) || negb (IsSuperset (ScopeWhitelist client) scope) then
          (ErrorJSON "Invalid scope" StatusUnauthorized, w)
        else
          let '(tok, w) := util_RandomToken w in
          let access := mkAccessToken tok scope zero_time (Client_UUID client)
                          (Some (Account_UUID account)) in
          match Access_Create access (db w) with
          | (Some err, db1) => (ErrorJSON err StatusInternalServerError, with_db w db1)
          | (None, db1) =>
              (TokenJSON (mkTokenResponse "Bearer" scope (Access_Token access) None),
               with_db w db1)
          end
  end.

(** [case "client_credentials":] *)
Definition Token_client_credentials `{Oracle} (client : Client) (body : TokenBody) (w : World)
  : Response * World :=
  let scope := NewStringSet (strings.Split_space (Body_Scope body)) in
  if bool_decide (Len scope = 0%nat) || negb (IsSuperset (ScopeWhitelist client) scope) then
    (ErrorJSON "Invalid scope" StatusUnauthorized, w)
  else
    let '(tok, w) := util_RandomToken w in
    let access := mkAccessToken tok scope zero_time (Client_UUID client) None in
    match Access_Create access (db w) with
    | (Some err, db1) => (ErrorJSON err StatusInternalServerError, with_db w db1)
    | (None, db1) =>
        (TokenJSON (mkTokenResponse "Bearer" scope (Access_Token access) None),
         with_db w db1)
    end.

(** [func Token(w, r)] *)
Definition Token `{Oracle} (r : TokenRequest) (w : World) : Response * World :=
  let '(clientId, clientSecret, authorizeOk) := BasicAuth r in
  match Form r with
  | inl err => (ErrorJSON err StatusBadRequest, w)
  | inr body =>
      let '(clientId, clientSecret) :=
        if negb authorizeOk then (Body_ClientId body, Body_ClientSecret body)
        else (clientId, clientSecret) in
      match GetClientByName (db w) clientId with
      | None => (ErrorJSON "Wrong client id or client secret" StatusUnauthorized, w)
      | Some client =>
          if bool_decide (clientSecret ≠ Client_Secret client) then
            (ErrorJSON "Wrong client id or client secret" StatusUnauthorized, w)
          else if bool_decide (Body_GrantType body = "authorization_code") then
            Token_authorization_code client body w
          else if bool_decide (Body_GrantType body = "refresh_token") then
            Token_refresh_token client body w
          else if bool_decide (Body_GrantType body = "password") then
            Token_password client body w
          else if bool_decide (Body_GrantType body = "client_credentials") then
            Token_client_credentials client body w
          else
            (ErrorJSON ("Unsupported grant type " +:+ Body_GrantType body) StatusBadRequest, w)
      end
  end.

End web.

(** ** Notions used in the statements *)

Module ledger.
Import util data.

(** The union of the provided-scope catalogs of all registered clients, each
    client loaded the way [GetClient] loads it. *)
Definition registered_catalog (db : Database) : StringSet :=
  ⋃ (map (λ row, from_option ScopeProvided ∅ (GetClient db (Client_UUID row))) (Clients db)).

(** Referential integrity of [ClientScopeProvided.clientUUID]: every scope
    row belongs to a registered client. *)
Definition scope_rows_owned (db : Database) : Prop :=
  Forall (λ s, Exists (λ c, Client_UUID c = Row_clientUUID s) (Clients db))
    (ClientScopeProvided db).

(** The scope an account has approved for a client; empty without a record. *)
Definition approved_scope (db : Database) (clientUUID accountUUID : string) : StringSet :=
  default ∅ (ClientApprovals db !! (clientUUID, accountUUID)).

(** A call of [client.Approve(accountUUID, scope)]. *)
Record ApproveCall := mkApproveCall {
  Call_client : Client;
  Call_account : string;
  Call_scope : StringSet
}.

(** A sequence of [Approve] calls, each on the database the previous left. *)
Definition run_Approves (calls : list ApproveCall) (db : Database) : Database :=
  foldl (λ d c, snd (Approve (Call_client c) (Call_account c) (Call_scope c) d)) db calls.

End ledger.

Module exchange.
Import util data web.

(** The client id and secret [Token] checks: those of the Authorization
    header, or those of the body when the header has none. *)
Definition credentials (r : TokenRequest) (body : TokenBody) : string * string :=
  let '(clientId, clientSecret, authorizeOk) := BasicAuth r in
  if negb authorizeOk then (Body_ClientId body, Body_ClientSecret body)
  else (clientId, clientSecret).

(** [client] is the authenticating client of request [r] with body [body]. *)
Definition authenticates (r : TokenRequest) (body : TokenBody) (w : World) (client : Client) : Prop :=
  Form r = inr body ∧
  GetClientByName (db w) (fst (credentials r body)) = Some client ∧
  snd (credentials r body) = Client_Secret client.

(** A token string that no access token, refresh token or exchange code of
    the database uses: creating a record under it is no persistence
    conflict. *)
Definition fresh_token (t : string) (d : Database) : Prop :=
  AccessTokens d !! t = None ∧ RefreshTokens d !! t = None ∧
  Forall (λ r, Code r ≠ Some t) (GrantRequests d).

(** The exchange code is a secondary key of [GrantRequests]: requests with
    the same code are the same request. *)
Definition codes_unique (d : Database) : Prop :=
  Forall (λ r1, Forall (λ r2, is_Some (Code r1) → Code r1 = Code r2 →
                              Request_Token r1 = Request_Token r2) (GrantRequests d))
    (GrantRequests d).

(** A sequence of calls of [Token], each on the world the previous left. *)
Definition run_Tokens `{Oracle} (calls : list TokenRequest) (w : World) : World :=
  foldl (λ w r, snd (Token r w)) w calls.

(** The access token [t] has the token string, scope, client and account
    given. *)
Definition carries (t : AccessToken) (tok : string) (scope : StringSet) (clientUUID : string)
  (account : NullString) : Prop :=
  Access_Token t = tok ∧ Access_Scope t = scope ∧
  Access_ClientUUID t = clientUUID ∧ Access_AccountUUID t = account.

End exchange.

(** ** A small database, after the test data of the repository *)

Module fixtures.
Import util data web.

Definition uuidClientGin : string := "8b14d6bb-cae7-4163-bbd1-f3be46e43e31".
Definition uuidClientWB : string := "177c56a4-57b4-4baf-a1a7-04f3d8e5b276".
Definition uuidAlice : string := "bf431618-f696-4dca-a95d-882618ce4ef9".
Definition uuidBob : string := "51f5ac36-d332-4889-8023-6e033fea1e8d".
Definition accessTokenAlice : string := "3N7MP7M7".
Definition accessTokenBob : string := "LJ3W7ZFK".
Definition refreshTokenAlice : string := "YYPTDSVZ".
Definition grantCodeAlice : string := "HGZQP6WE".

Definition clientGin : Client :=
  mkClient uuidClientGin "gin" "secret" ∅ {["https://localhost:8081/login"]}
    {["account-read"; "repo-read"]} 0 0.

Definition clientWB : Client :=
  mkClient uuidClientWB "wb" "secret-wb" ∅ {["https://localhost:8082/login"]}
    {["account-read"]} 0 0.

(** The two clients as [getClient] loads them. *)
Definition loadedGin : Client :=
  with_ScopeProvidedMap clientGin
    {[ "account-read" := "Read access to your account";
       "account-write" := "Write access to your account";
       "repo-read" := "Read access to your repositories";
       "repo-write" := "Write access to your repositories" ]}.

Definition loadedWB : Client :=
  with_ScopeProvidedMap clientWB {[ "account-admin" := "Administration of accounts" ]}.

Definition alice : Account := mkAccount uuidAlice "alice" "hash:testtest".
Definition bob : Account := mkAccount uuidBob "bob" "hash:testtest".

Definition requestAlice : GrantRequest :=
  mkGrantRequest "U7JIKKYI" "code" "state-1" (Some grantCodeAlice)
    {["repo-read"; "repo-write"]} "https://localhost:8081/login" uuidClientGin (Some uuidAlice).

Definition requestBob : GrantRequest :=
  mkGrantRequest "B4LIMIMB" "token" "state-2" None
    {["repo-read"; "account-write"]} "https://localhost:8081/login" uuidClientGin (Some uuidBob).

Definition testDb : Database :=
  mkDatabase
    [clientGin; clientWB]
    [mkScopeRow uuidClientGin "account-read" "Read access to your account";
     mkScopeRow uuidClientGin "account-write" "Write access to your account";
     mkScopeRow uuidClientGin "repo-read" "Read access to your repositories";
     mkScopeRow uuidClientGin "repo-write" "Write access to your repositories";
     mkScopeRow uuidClientWB "account-admin" "Administration of accounts"]
    {[ (uuidClientGin, uuidAlice) := {["account-write"]} ]}
    [requestAlice; requestBob]
    {[ accessTokenAlice := mkAccessToken accessTokenAlice {["repo-read"; "repo-write"]} 2000
                             uuidClientGin (Some uuidAlice);
       accessTokenBob := mkAccessToken accessTokenBob {["repo-read"]} 100
                           uuidClientGin (Some uuidBob) ]}
    {[ refreshTokenAlice := mkRefreshToken refreshTokenAlice {["repo-read"; "account-read"]}
                              uuidClientGin uuidAlice ]}
    [alice; bob].

(** An oracle to run the handlers on: the n-th random token is a letter
    followed by a fixed tail, and a password is right when the stored hash is
    the password behind a prefix. *)
Definition testOracle : Oracle :=
  mkOracle (λ n, String (Ascii.ascii_of_nat (65 + n)) "KQ2XTR9")
           (λ a pw, String.eqb (PWHash a) ("hash:" +:+ pw)).

Definition testWorld : World := mkWorld testDb ∅ 1000 0.

(** An inner handler that reports what [OAuthToken] gives it, and one that
    panics. *)
Definition probe : Handler := λ r w,
  match OAuthToken r w with
  | Some info =>
      (Return (Body (if bool_decide (Match info = Access_Scope (Token_ info))
                     then "whole scope of the token" else "part of the scope") 200), w)
  | None => (Return (Body "anonymous" 200), w)
  end.

Definition panicking : Handler := λ r w, (Panic "runtime error", w).

Definition requestOfAlice : Request :=
  mkRequest 7 {[ "Authorization" := "Bearer " +:+ accessTokenAlice ]}.

Definition approveFormBob : ApproveForm := mkApproveForm "gin" "B4LIMIMB" ["account-write"].

End fixtures.

(** ** More of package data (client.go) *)

Module registry.
Import util data.

(** [func Difference(mainSet, getDiff)]: the keys of [getDiff] that
    [mainSet] does not contain. *)
Definition Difference (mainSet getDiff : StringSet) : StringSet :=
  let ret := filter (λ k, Contains mainSet k = false) (elements getDiff) in
  NewStringSet ret.

(** [listClientUUIDs] *)
Definition listClientUUIDs (db : Database) : StringSet :=
  NewStringSet (map Client_UUID (Clients db)).

(** The loop of [DescribeScope] over the selected rows: it fills [names] and
    [desc] side by side. *)
Definition describe_rows (rows : list ScopeRow) : list string * gmap string string :=
  foldl (λ acc d, ((fst acc ++ [Row_Name d])%list, <[Row_Name d := Row_Description d]> (snd acc)))
        ([], ∅) rows.

(** [func DescribeScope(scope)] *)
Definition DescribeScope (db : Database) (scope : StringSet) : gmap string string * bool :=
  let desc : gmap string string := ∅ in
  if decide (Len scope = 0%nat) then (desc, false)
  else
    let '(names, desc) := describe_rows (ClientScopeProvided db) in
    let global := NewStringSet names in
    (desc, IsSuperset global scope).

Definition with_Token (req : GrantRequest) (token : string) : GrantRequest :=
  mkGrantRequest token (GrantType req) (State req) (Code req) (ScopeRequested req)
    (RedirectURI req) (Request_ClientUUID req) (Request_AccountUUID req).

(** Modelled from the spec: [GrantRequest.Create] (grant_request.go is not
    among the sources), "persists a new Pending request with a freshly
    generated unique token"; "a persistence conflict on create is surfaced as
    an error".  [token] is the token string it draws. *)
Definition Request_Create (token : string) (req : GrantRequest) (db : Database)
  : GrantRequest * error * Database :=
  let req := with_Token req token in
  match GetGrantRequest db token with
  | Some _ => (req, Some "duplicate key value violates unique constraint", db)
  | None => (req, None, set_GrantRequests (λ rows, (rows ++ [req])%list) db)
  end.

(** [func (client *Client) CreateGrantRequest(responseType, redirectURI, state,
    scope)].  The request returned is [None] where the source returns [nil],
    that is when [Create] was not reached; [token] is what [Create] draws. *)
Definition CreateGrantRequest (token : string) (client : Client)
  (responseType redirectURI state : string) (scope : StringSet) (db : Database)
  : option GrantRequest * error * Database :=
  if negb (bool_decide (responseType = "code") || bool_decide (responseType = "token")) then
    (None, Some "Response type expected to be 'code' or 'token'", db)
  else if negb (Contains (RedirectURIs client) redirectURI) then
    (None, Some ("Redirect URI invalid: '" +:+ redirectURI +:+ "'"), db)
  else if negb (CheckScope db scope) then
    (None, Some "Invalid scope", db)
  else
    let request := mkGrantRequest "" responseType state None scope redirectURI
                     (Client_UUID client) None in
    let '(request, err, db1) := Request_Create token request db in
    (Some request, err, db1).

End registry.

(** ** More of package web (oauth.go): the authorization pages *)

Module flow.
Import util data web registry.

(** What [Authorize], [LoginPage], [Login] and [ApprovePage] hand to their
    template: [loginData], and the anonymous struct of [ApprovePage], whose
    [ExistingScope] stays [nil] ([None]) without an approval. *)
Inductive PageData :=
  | LoginData (RequestID : string)
  | ApproveData (Client : string) (AddScope : gmap string string)
      (ExistingScope : option (gmap string string)) (RequestID : string).

(** What these handlers write: a response of the kinds above, a redirect to
    a path of the server, or a page, kept as the template's name and data. *)
Inductive Reply :=
  | Wrote (resp : Response)
  | RedirectTo (url : string) (status : Z)
  | Page (template : string) (pageData : PageData).

Definition wrote (run : Result Response * World) : Result Reply * World :=
  match run with
  | (Return resp, w) => (Return (Wrote resp), w)
  | (Panic msg, w) => (Panic msg, w)
  end.

(** [url.Values] and its [Get]: the first value of the key, or the empty
    string. *)
Abbreviation Values := (gmap string (list string)).

Definition Values_Get (query : Values) (key : string) : string :=
  match query !! key with
  | Some (v :: _) => v
  | _ => ""
  end.

(** The struct [Authorize] reads the query into. *)
Record AuthorizeQuery := mkAuthorizeQuery {
  Query_ResponseType : string;
  Query_ClientId : string;
  Query_RedirectURI : string;
  Query_State : string;
  Query_Scope : string
}.

(** [func Authorize(w, r)]; [query] is the result of
    [util.ReadQueryIntoStruct].  The random token is drawn inside
    [GrantRequest.Create], so the draw counts only when [Create] was
    reached. *)
Definition Authorize `{Oracle} (query : string + AuthorizeQuery) (w : World)
  : Result Reply * World :=
  match query with
  | inl err => (Return (Wrote (ErrorHTML err 400)), w)
  | inr param =>
      match GetClientByName (db w) (Query_ClientId param) with
      | None =>
          (Return (Wrote (ErrorHTML ("Client '" +:+ Query_ClientId param +:+ "' does not exist")
                            StatusBadRequest)), w)
      | Some client =>
          let scope := NewStringSet (strings.Split_space (Query_Scope param)) in
          let '(request, err, db1) :=
            CreateGrantRequest (RandomToken (Draws w)) client (Query_ResponseType param)
              (Query_RedirectURI param) (Query_State param) scope (db w) in
          let w := match request with
                   | Some _ => mkWorld db1 (tokens_store w) (now w) (S (Draws w))
                   | None => w
                   end in
          match err, request with
          | Some err, _ => (Return (Wrote (ErrorHTML err StatusBadRequest)), w)
          | None, Some request =>
              (Return (RedirectTo ("/oauth/login_page?request_id=" +:+ Request_Token request)
                         StatusFound), w)
          | None, None => (Panic "invalid memory address or nil pointer dereference", w)
          end
      end
  end.

(** [func LoginPage(w, r)] *)
Definition LoginPage (query : Values) (w : World) : Result Reply * World :=
  if bool_decide (query = ∅) then
    (Return (Wrote (ErrorHTML "Query parameter 'request_id' was missing" StatusBadRequest)), w)
  else
    let token := Values_Get query "request_id" in
    match GetGrantRequest (db w) token with
    | None => (Return (Wrote (ErrorHTML "Grant request does not exist" StatusNotFound)), w)
    | Some _ => (Return (Page "login.html" (LoginData token)), w)
    end.

(** [type loginData struct] *)
Record loginData := mkLoginData {
  Login_Login : string;
  Login_Password : string;
  Login_RequestID : string
}.

Definition with_AccountUUID (req : GrantRequest) (account : NullString) : GrantRequest :=
  mkGrantRequest (Request_Token req) (GrantType req) (State req) (Code req) (ScopeRequested req)
    (RedirectURI req) (Request_ClientUUID req) account.

Definition login_page (request : GrantRequest) : Reply :=
  RedirectTo ("/oauth/login_page?request_id=" +:+ Request_Token request) StatusFound.

Definition approve_page (request : GrantRequest) : Reply :=
  RedirectTo ("/oauth/approve_page?request_id=" +:+ Request_Token request) StatusFound.

(** [func Login(w, r)]; [form] is the result of [util.ReadFormIntoStruct]. *)
Definition Login `{Oracle} (form : string + loginData) (w : World) : Result Reply * World :=
  match form with
  | inl err => (Return (Wrote (ErrorHTML err StatusBadRequest)), w)
  | inr param =>
      match GetGrantRequest (db w) (Login_RequestID param) with
      | None => (Return (Wrote (ErrorHTML "Grant request does not exist" StatusNotFound)), w)
      | Some request =>
          match GetAccountByLogin (db w) (Login_Login param) with
          | None => (Return (login_page request), w)
          | Some account =>
              if negb (VerifyPassword account (Login_Password param)) then
                (Return (login_page request), w)
              else
                let request := with_AccountUUID request (Some (Account_UUID account)) in
                match Request_Update request (db w) with
                | (Some err, _) => (Panic err, w)
                | (None, db1) =>
                    let w := with_db w db1 in
                    if IsApproved (db w) request then
                      if bool_decide (GrantType request = "code") then
                        wrote (finishCodeRequest request w)
                      else wrote (finishImplicitRequest request w)
                    else (Return (approve_page request), w)
                end
          end
      end
  end.

(** [func ApprovePage(w, r)] *)
Definition ApprovePage (query : Values) (w : World) : Result Reply * World :=
  if bool_decide (query = ∅) then
    (Return (Wrote (ErrorHTML "Query parameter 'request_id' was missing" StatusBadRequest)), w)
  else
    let token := Values_Get query "request_id" in
    match GetGrantRequest (db w) token with
    | None => (Return (Wrote (ErrorHTML "Grant request does not exist" StatusNotFound)), w)
    | Some request =>
        if negb (bool_decide (is_Some (Request_AccountUUID request))) then
          (Return (Wrote (ErrorHTML "Grant request is not authenticated" StatusUnauthorized)), w)
        else
          match Request_Client (db w) request with
          | None => (Panic "Invalid client", w)
          | Some client =>
              let scope := util.Difference (ScopeRequested request) (ScopeWhitelist client) in
              let approval :=
                ApprovalForAccount (db w) client (NullString_String (Request_AccountUUID request)) in
              match approval with
              | Some approval =>
                  if Nat.ltb 0 (Len (Approval_Scope approval)) then
                    let '(existScope, ok) := DescribeScope (db w) (Approval_Scope approval) in
                    if negb ok then (Panic "Invalid scope", w)
                    else
                      let '(addScope, ok) :=
                        DescribeScope (db w) (util.Difference scope (Approval_Scope approval)) in
                      if negb ok then (Panic "Invalid scope", w)
                      else
                        (Return (Page "approve.html"
                                   (ApproveData (Client_Name client) addScope (Some existScope)
                                      (Request_Token request))), w)
                  else
                    let '(addScope, ok) := DescribeScope (db w) scope in
                    if negb ok then (Panic "Invalid scope", w)
                    else
                      (Return (Page "approve.html"
                                 (ApproveData (Client_Name client) addScope None
                                    (Request_Token request))), w)
              | None =>
                  let '(addScope, ok) := DescribeScope (db w) scope in
                  if negb ok then (Panic "Invalid scope", w)
                  else
                    (Return (Page "approve.html"
                               (ApproveData (Client_Name client) addScope None
                                  (Request_Token request))), w)
              end
          end
    end.

End flow.

(** ** The scope string on the wire *)

Module wire.
Import util data web.






End wire.

(** * Properties *)

Section scope_catalog.
Import util data ledger.

Lemma Len_zero (s : StringSet) : Len s = 0%nat ↔ s = ∅.
Proof. unfold Len. rewrite size_empty_iff. apply leibniz_equiv_iff. Qed.

Lemma IsSuperset_true (s other : StringSet) : IsSuperset s other = true ↔ other ⊆ s.
Proof. unfold IsSuperset. apply bool_decide_eq_true. Qed.

Lemma IsSuperset_false (s other : StringSet) : IsSuperset s other = false ↔ ¬ other ⊆ s.
Proof. unfold IsSuperset. apply bool_decide_eq_false. Qed.

Lemma foldl_insert_dom (rows : list ScopeRow) (m0 : gmap string string) :
  dom (foldl (λ m s, <[Row_Name s := Row_Description s]> m) m0 rows)
  = dom m0 ∪ list_to_set (map Row_Name rows).
Proof.
  revert m0. induction rows as [|s rows IH]; intros m0; simpl.
  - set_solver.
  - rewrite IH, dom_insert_L. set_solver.
Qed.

Lemma ScopeProvided_dom (c : Client) : ScopeProvided c = dom (ScopeProvidedMap c).
Proof.
  unfold ScopeProvided, NewStringSet. apply leibniz_equiv. symmetry. apply dom_alt.
Qed.

(** The catalog of a loaded client is the set of names of its scope rows. *)
Lemma getClient_catalog (db : Database) (sel : Client → bool) (c : Client) :
  getClient db sel = Some c →
  ∃ row, find sel (Clients db) = Some row ∧ Client_UUID c = Client_UUID row ∧
    ScopeProvided c
    = list_to_set (map Row_Name (filter (λ s, Row_clientUUID s = Client_UUID row)
                                    (ClientScopeProvided db))).
Proof.
  unfold getClient. destruct (find sel (Clients db)) as [row|] eqn:Hf; [|done].
  intros [= <-]. exists row. split; [done|]. split; [done|].
  rewrite ScopeProvided_dom. simpl. rewrite foldl_insert_dom. set_solver.
Qed.

Lemma registered_catalog_names (db : Database) :
  scope_rows_owned db →
  registered_catalog db = list_to_set (map Row_Name (ClientScopeProvided db)).
Proof.
  intros Hfk. apply set_eq. intros x. unfold registered_catalog.
  rewrite elem_of_union_list. split.
  - intros (X & HX & Hx). apply list_elem_of_fmap in HX as (row & -> & Hrow).
    destruct (GetClient db (Client_UUID row)) as [c|] eqn:Hc; simpl in Hx; [|set_solver].
    apply getClient_catalog in Hc as (row' & _ & _ & Hcat). rewrite Hcat in Hx.
    apply elem_of_list_to_set, list_elem_of_fmap in Hx as (s & -> & Hs).
    apply list_elem_of_filter in Hs as [_ Hs].
    apply elem_of_list_to_set, list_elem_of_fmap. eauto.
  - intros Hx. apply elem_of_list_to_set, list_elem_of_fmap in Hx as (s & -> & Hs).
    unfold scope_rows_owned in Hfk. rewrite Forall_forall in Hfk.
    specialize (Hfk s Hs). apply Exists_exists in Hfk as (row & Hrow & Huuid).
    exists (from_option ScopeProvided ∅ (GetClient db (Client_UUID row))). split.
    + apply list_elem_of_fmap. eauto.
    + unfold GetClient, getClient.
      destruct (find _ (Clients db)) as [row'|] eqn:Hf.
      * apply find_some in Hf as [_ Heq]. apply bool_decide_eq_true in Heq.
        simpl. rewrite ScopeProvided_dom. simpl. rewrite foldl_insert_dom.
        apply elem_of_union_r, elem_of_list_to_set, list_elem_of_fmap.
        exists s. split; [done|]. apply list_elem_of_filter. split; [congruence|done].
      * assert (Hin : In row (Clients db)) by by apply list_elem_of_In.
        pose proof (find_none _ _ Hf row Hin) as Hn. simpl in Hn.
        by rewrite bool_decide_eq_true_2 in Hn.
Qed.

(** C8. [CheckScope] of the empty scope is false; of any other scope it is
    true exactly when the scope is a subset of the union of the provided-scope
    catalogs of all registered clients.  The scope table refers to registered
    clients only (the foreign key of [ClientScopeProvided.clientUUID]). *)
Theorem CheckScope_global_catalog (db : Database) (s : StringSet) :
  scope_rows_owned db →
  (s = ∅ → CheckScope db s = false) ∧
  (s ≠ ∅ → (CheckScope db s = true ↔ s ⊆ registered_catalog db)).
Proof.
  intros Hfk. unfold CheckScope. split.
  - intros ->. by rewrite decide_True by by apply Len_zero.
  - intros Hne. rewrite decide_False by by rewrite Len_zero.
    rewrite registered_catalog_names by done. simpl. apply IsSuperset_true.
Qed.

End scope_catalog.

Section approval_ledger.
Import util data ledger fixtures.

Implicit Types (db : Database) (client : Client) (s : StringSet).

Lemma CheckScope_approvals db s (f : gmap (string * string) StringSet → gmap (string * string) StringSet) :
  CheckScope (set_ClientApprovals f db) s = CheckScope db s.
Proof. reflexivity. Qed.

(** What a call with a valid scope does: the record of the pair holds the
    union of what it held and the scope, and the call returns no error. *)
Lemma Approve_valid db client (account : string) s :
  CheckScope db s = true →
  Approve client account s db
  = (None, set_ClientApprovals
             (insert (Client_UUID client, account)
                     (approved_scope db (Client_UUID client) account ∪ s)) db).
Proof.
  intros Hs. unfold Approve, ApprovalForAccount, approved_scope. rewrite Hs. simpl.
  destruct (ClientApprovals db !! (Client_UUID client, account)) as [e|] eqn:He; simpl.
  - destruct (IsSuperset e s) eqn:Hsup; simpl.
    + apply IsSuperset_true in Hsup. f_equal.
      replace (e ∪ s) with e by set_solver.
      destruct db. unfold set_ClientApprovals. simpl in *. f_equal.
      by rewrite insert_id.
    + unfold Approval_Update. simpl. by rewrite He.
  - unfold Approval_Create. simpl. rewrite He. do 3 f_equal. set_solver.
Qed.

Lemma Approve_invalid db client (account : string) s :
  CheckScope db s = false → Approve client account s db = (Some "Invalid scope", db).
Proof. intros Hs. unfold Approve. by rewrite Hs. Qed.

Lemma approved_scope_insert db (k : string * string) (v : StringSet) (c a : string) :
  approved_scope (set_ClientApprovals (insert k v) db) c a
  = if decide (k = (c, a)) then v else approved_scope db c a.
Proof. unfold approved_scope. simpl. rewrite lookup_insert. by case_decide. Qed.

(** One call never takes a name out of any record. *)
Lemma Approve_grows db client (account : string) s (c a : string) :
  approved_scope db c a ⊆ approved_scope (snd (Approve client account s db)) c a.
Proof.
  destruct (CheckScope db s) eqn:Hs.
  - rewrite Approve_valid by done. simpl. rewrite approved_scope_insert.
    case_decide as Hk; [|done]. injection Hk as <- <-. set_solver.
  - by rewrite Approve_invalid.
Qed.

Lemma run_Approves_grows (calls : list ApproveCall) db (c a : string) :
  approved_scope db c a ⊆ approved_scope (run_Approves calls db) c a.
Proof.
  revert db. induction calls as [|call calls IH]; intros db; simpl; [done|].
  etrans; [|apply IH]. apply Approve_grows.
Qed.

(** C4, as amended. After [Approve(account, s1)] and [Approve(account, s2)]
    with valid scopes the record of (client, account) holds the scope it held
    before joined with s1 ∪ s2, hence exactly s1 ∪ s2 when the pair had no
    record; both calls return no error; the database is the same in either
    call order; repeating a call changes nothing; and no sequence of
    [Approve] calls shrinks the scope of any record. *)
Theorem Approve_accumulates db client (account : string) (s1 s2 : StringSet) :
  CheckScope db s1 = true →
  CheckScope db s2 = true →
  let key := (Client_UUID client, account) in
  let db1 := snd (Approve client account s1 db) in
  let db12 := snd (Approve client account s2 db1) in
  let db21 := snd (Approve client account s1 (snd (Approve client account s2 db))) in
  fst (Approve client account s1 db) = None ∧
  fst (Approve client account s2 db1) = None ∧
  approved_scope db12 (Client_UUID client) account
    = approved_scope db (Client_UUID client) account ∪ (s1 ∪ s2) ∧
  (ClientApprovals db !! key = None →
     ClientApprovals db12 !! key = Some (s1 ∪ s2)) ∧
  db12 = db21 ∧
  Approve client account s1 db1 = (None, db1) ∧
  (∀ calls c a, approved_scope db c a ⊆ approved_scope (run_Approves calls db) c a).
Proof.
  intros H1 H2 key db1 db12 db21. subst key db1 db12 db21.
  rewrite (Approve_valid db client account s1 H1). simpl.
  rewrite (Approve_valid db client account s2 H2). simpl.
  rewrite !Approve_valid by done. simpl.
  rewrite !approved_scope_insert, !decide_True by done.
  unfold set_ClientApprovals; simpl. rewrite !insert_insert_eq.
  repeat split.
  - set_solver.
  - intros Hnone. rewrite lookup_insert_eq. unfold approved_scope. rewrite Hnone. simpl.
    f_equal. set_solver.
  - do 2 f_equal. set_solver.
  - do 3 f_equal. set_solver.
  - intros calls c a. apply run_Approves_grows.
Qed.

Lemma Approve_accumulates_witness :
  CheckScope testDb {["repo-read"]} = true ∧
  CheckScope testDb {["repo-write"]} = true ∧
  approved_scope
    (snd (Approve clientGin uuidBob {["repo-write"]}
            (snd (Approve clientGin uuidBob {["repo-read"]} testDb))))
    uuidClientGin uuidBob
  = approved_scope testDb uuidClientGin uuidBob ∪ ({["repo-read"]} ∪ {["repo-write"]}).
Proof.
  split; [vm_compute; reflexivity|]. split; [vm_compute; reflexivity|].
  apply (Approve_accumulates testDb clientGin uuidBob {["repo-read"]} {["repo-write"]});
    vm_compute; reflexivity.
Defined.

(** C4 as stated fails when the pair already has a record: alice has approved
    account-write for gin, and after approving repo-read and then repo-write
    the record is not exactly those two names. *)
Lemma Approve_not_exactly_union :
  CheckScope testDb {["repo-read"]} = true ∧
  CheckScope testDb {["repo-write"]} = true ∧
  approved_scope
    (snd (Approve clientGin uuidAlice {["repo-write"]}
            (snd (Approve clientGin uuidAlice {["repo-read"]} testDb))))
    uuidClientGin uuidAlice
  ≠ {["repo-read"]} ∪ {["repo-write"]}.
Proof.
  split; [vm_compute; reflexivity|]. split; [vm_compute; reflexivity|].
  apply (bool_decide_unpack _). vm_compute. exact I.
Qed.

(** The foreign key holds in the test database. *)
Lemma testDb_scope_rows_owned : scope_rows_owned testDb.
Proof. apply (bool_decide_unpack _). vm_compute. exact I. Defined.

Lemma CheckScope_global_catalog_witness :
  scope_rows_owned testDb ∧
  (({["repo-read"; "account-admin"]} : StringSet) = ∅ →
     CheckScope testDb {["repo-read"; "account-admin"]} = false) ∧
  (({["repo-read"; "account-admin"]} : StringSet) ≠ ∅ →
     (CheckScope testDb {["repo-read"; "account-admin"]} = true
      ↔ {["repo-read"; "account-admin"]} ⊆ registered_catalog testDb)).
Proof.
  split; [exact testDb_scope_rows_owned|].
  apply (CheckScope_global_catalog testDb {["repo-read"; "account-admin"]}).
  exact testDb_scope_rows_owned.
Defined.

End approval_ledger.

Section token_lookup.
Import util data fixtures.

(** C7. Looking an access token up at or after its expiry timestamp gives
    the same "not found" as looking up a token string that is in no record. *)
Theorem GetAccessToken_expired_as_missing (db : Database) (now : Z) (token missing : string)
  (tok : AccessToken) :
  AccessTokens db !! token = Some tok →
  (Expires tok ≤ now)%Z →
  AccessTokens db !! missing = None →
  GetAccessToken now db token = None ∧
  GetAccessToken now db token = GetAccessToken now db missing.
Proof.
  intros Htok Hexp Hmiss. unfold GetAccessToken. rewrite Htok, Hmiss.
  destruct (Z.ltb_spec now (Expires tok)); [lia|done].
Qed.

Lemma GetAccessToken_expired_as_missing_witness :
  GetAccessToken 1000 testDb accessTokenBob = None ∧
  GetAccessToken 1000 testDb accessTokenBob = GetAccessToken 1000 testDb "doesNotExist".
Proof.
  apply (GetAccessToken_expired_as_missing testDb 1000 accessTokenBob "doesNotExist"
           (mkAccessToken accessTokenBob {["repo-read"]} 100 uuidClientGin (Some uuidBob)));
    vm_compute; first [reflexivity | discriminate].
Defined.

(** Before its expiry a stored token is found (TestGetAccessToken). *)
Lemma GetAccessToken_valid (db : Database) (now : Z) (token : string) (tok : AccessToken) :
  AccessTokens db !! token = Some tok → (now < Expires tok)%Z →
  GetAccessToken now db token = Some tok.
Proof.
  intros Htok Hexp. unfold GetAccessToken. rewrite Htok.
  destruct (Z.ltb_spec now (Expires tok)); [done|lia].
Qed.

Example TestGetAccessToken :
  (Access_AccountUUID <$> GetAccessToken 1000 testDb accessTokenAlice) = Some (Some uuidAlice) ∧
  GetAccessToken 1000 testDb "doesNotExist" = None ∧
  GetAccessToken 1000 testDb accessTokenBob = None.
Proof. vm_compute. done. Qed.

End token_lookup.

Section token_exchange.
Import util data web exchange fixtures.
Context `{Oracle}.

Implicit Types (r : TokenRequest) (body : TokenBody) (w : World) (client : Client).

(** Unfolds the handlers and the store operations they call. *)
Ltac unfold_token :=
  unfold Token_authorization_code, Token_refresh_token, Token_password,
    Token_client_credentials, ExchangeCodeForTokens, Access_Create, Refresh_Create,
    Request_Delete, Refresh_Delete, util_RandomToken, with_db in *.

(** Names the stored access token and checks what it carries. *)
Ltac stored_token := eexists; split; [|reflexivity]; by unfold carries.

(** Past the client check, [Token] is the switch on the grant type. *)
Lemma Token_switch r body w client :
  authenticates r body w client →
  Token r w =
    if bool_decide (Body_GrantType body = "authorization_code") then
      Token_authorization_code client body w
    else if bool_decide (Body_GrantType body = "refresh_token") then
      Token_refresh_token client body w
    else if bool_decide (Body_GrantType body = "password") then
      Token_password client body w
    else if bool_decide (Body_GrantType body = "client_credentials") then
      Token_client_credentials client body w
    else (ErrorJSON ("Unsupported grant type " +:+ Body_GrantType body) StatusBadRequest, w).
Proof.
  intros (Hform & Hclient & Hsecret). unfold Token, credentials in *.
  destruct (BasicAuth r) as [[clientId clientSecret] authorizeOk]. rewrite Hform.
  destruct authorizeOk; simpl in *; rewrite Hclient;
    by rewrite bool_decide_eq_false_2 by (intros Hne; by apply Hne).
Qed.

(** [Token] creates no grant request: what holds of all of them still holds. *)
Lemma Token_requests_Forall (P : GrantRequest → Prop) r w :
  Forall P (GrantRequests (db w)) → Forall P (GrantRequests (db (snd (Token r w)))).
Proof.
  intros HP.
  assert (Hfilter : ∀ req, Forall P (filter (λ q, Request_Token q ≠ Request_Token req)
                                       (GrantRequests (db w)))).
  { intros req. apply Forall_forall. intros x Hx. apply list_elem_of_filter in Hx as [_ Hx].
    rewrite Forall_forall in HP. by apply HP. }
  unfold Token. unfold_token.
  repeat (case_match; simpl in *; simplify_eq; try done).
Qed.

Lemma run_Tokens_requests_Forall (P : GrantRequest → Prop) (calls : list TokenRequest) w :
  Forall P (GrantRequests (db w)) → Forall P (GrantRequests (db (run_Tokens calls w))).
Proof.
  revert w. induction calls as [|r calls IH]; intros w HP; simpl; [done|].
  apply IH. by apply Token_requests_Forall.
Qed.

Lemma GetGrantRequestByCode_None (d : Database) (code : string) :
  GetGrantRequestByCode d code = None ↔ Forall (λ q, Code q ≠ Some code) (GrantRequests d).
Proof.
  unfold GetGrantRequestByCode. rewrite Forall_forall. split.
  - intros Hf x Hx Hc. apply list_elem_of_In in Hx.
    pose proof (find_none _ _ Hf x Hx) as Hn. simpl in Hn.
    by rewrite bool_decide_eq_true_2 in Hn.
  - intros Hall. destruct (find _ _) as [x|] eqn:Hf; [|done].
    apply find_some in Hf as [Hx Hc]. apply bool_decide_eq_true in Hc.
    apply list_elem_of_In in Hx. by destruct (Hall x Hx).
Qed.

Lemma GetGrantRequestByCode_Some (d : Database) (code : string) (request : GrantRequest) :
  GetGrantRequestByCode d code = Some request →
  request ∈ GrantRequests d ∧ Code request = Some code.
Proof.
  unfold GetGrantRequestByCode. intros Hf. apply find_some in Hf as [Hx Hc].
  apply bool_decide_eq_true in Hc. by apply list_elem_of_In in Hx.
Qed.

Lemma GetGrantRequest_deleted (d : Database) (request : GrantRequest) :
  GetGrantRequest (snd (Request_Delete request d)) (Request_Token request) = None.
Proof.
  unfold GetGrantRequest. simpl. destruct (find _ _) as [x|] eqn:Hf; [|done].
  apply find_some in Hf as [Hx Hc]. apply bool_decide_eq_true in Hc.
  apply list_elem_of_In, list_elem_of_filter in Hx as [Hne _]. done.
Qed.

(** With unique codes, deleting the request of a code leaves the code
    unused. *)
Lemma code_gone_after_delete (d : Database) (code : string) (request : GrantRequest) :
  codes_unique d →
  GetGrantRequestByCode d code = Some request →
  Forall (λ q, Code q ≠ Some code) (GrantRequests (snd (Request_Delete request d))).
Proof.
  intros Huniq Hreq. apply GetGrantRequestByCode_Some in Hreq as [Hin Hcode].
  simpl. apply Forall_forall. intros x Hx Hc.
  apply list_elem_of_filter in Hx as [Hne Hx]. apply Hne.
  unfold codes_unique in Huniq. rewrite Forall_forall in Huniq.
  specialize (Huniq x Hx). rewrite Forall_forall in Huniq.
  apply (Huniq request Hin); [by rewrite Hc|congruence].
Qed.

(** Unique exchange codes are an invariant of the handlers: [Token] only
    deletes requests, and [finishCodeRequest] stores a code through
    [Request_Update], which refuses a code another request has. *)
Lemma codes_unique_spec (d : Database) :
  codes_unique d ↔
  ∀ q1 q2, q1 ∈ GrantRequests d → q2 ∈ GrantRequests d →
           is_Some (Code q1) → Code q1 = Code q2 → Request_Token q1 = Request_Token q2.
Proof.
  unfold codes_unique. rewrite Forall_forall. split.
  - intros Hu q1 q2 H1 H2. specialize (Hu q1 H1). rewrite Forall_forall in Hu. by apply Hu.
  - intros Hu q1 H1. apply Forall_forall. intros q2 H2. by apply Hu.
Qed.

Lemma Token_codes_unique r w :
  codes_unique (db w) → codes_unique (db (snd (Token r w))).
Proof.
  rewrite !codes_unique_spec. intros Hu q1 q2 H1 H2.
  assert (Hsub : Forall (λ q, q ∈ GrantRequests (db w)) (GrantRequests (db (snd (Token r w))))).
  { apply Token_requests_Forall. by apply Forall_forall. }
  rewrite Forall_forall in Hsub. apply Hu; by apply Hsub.
Qed.

Lemma finishCodeRequest_codes_unique (request : GrantRequest) w :
  codes_unique (db w) → codes_unique (db (snd (finishCodeRequest request w))).
Proof.
  unfold finishCodeRequest, Request_Update, util_RandomToken. simpl.
  set (req := with_Code request (Some (RandomToken (Draws w)))).
  case_bool_decide as Hconflict; simpl; [done|].
  rewrite Exists_exists in Hconflict.
  rewrite !codes_unique_spec. simpl. intros Hu q1 q2 H1 H2 Hsome Hcode.
  apply list_elem_of_fmap in H1 as (p1 & -> & H1).
  apply list_elem_of_fmap in H2 as (p2 & -> & H2).
  repeat case_bool_decide; simpl in *.
  - done.
  - destruct Hconflict. exists p2. split; [done|]. split; [congruence|]. by split.
  - destruct Hconflict. exists p1. split; [done|]. split; [congruence|].
    split; [by rewrite <- Hcode|done].
  - by apply Hu.
Qed.

(** C2. When the code resolves to a request of another client, [Token]
    deletes the request and answers with the error of a code that does not
    resolve. *)
Theorem Token_code_client_mismatch r body w client (request : GrantRequest) :
  authenticates r body w client →
  Body_GrantType body = "authorization_code" →
  GetGrantRequestByCode (db w) (Body_Code body) = Some request →
  Request_ClientUUID request ≠ Client_UUID client →
  fst (Token r w) = ErrorJSON "Invalid grant code" StatusUnauthorized ∧
  GetGrantRequest (db (snd (Token r w))) (Request_Token request) = None ∧
  GrantRequests (db (snd (Token r w)))
    = filter (λ q, Request_Token q ≠ Request_Token request) (GrantRequests (db w)) ∧
  (∀ r0 body0 w0 client0,
     authenticates r0 body0 w0 client0 →
     Body_GrantType body0 = "authorization_code" →
     GetGrantRequestByCode (db w0) (Body_Code body0) = None →
     Token r0 w0 = (fst (Token r w), w0)).
Proof.
  intros Hauth Hgrant Hreq Hne.
  rewrite (Token_switch r body w client Hauth), Hgrant. simpl.
  unfold Token_authorization_code. rewrite Hreq.
  rewrite bool_decide_eq_true_2 by done. simpl. repeat split.
  - apply (GetGrantRequest_deleted (db w) request).
  - intros r0 body0 w0 client0 Hauth0 Hgrant0 Hnone.
    rewrite (Token_switch r0 body0 w0 client0 Hauth0), Hgrant0. simpl.
    unfold Token_authorization_code. by rewrite Hnone.
Qed.

(** C1. A successful authorization_code exchange (the code resolves, the
    request belongs to the authenticating client, the two drawn token strings
    are not taken) answers with one access token and one refresh token of the
    requested scope, stores exactly these two records, and deletes the grant
    request; after it, and after any further calls of [Token], redeeming the
    same code fails with "Invalid grant code" for every authenticating
    client. Exchange codes are unique among the stored requests. *)
Theorem Token_code_exchange_once r body w client (request : GrantRequest) :
  authenticates r body w client →
  Body_GrantType body = "authorization_code" →
  GetGrantRequestByCode (db w) (Body_Code body) = Some request →
  Request_ClientUUID request = Client_UUID client →
  codes_unique (db w) →
  AccessTokens (db w) !! RandomToken (Draws w) = None →
  RefreshTokens (db w) !! RandomToken (S (Draws w)) = None →
  let access := RandomToken (Draws w) in
  let refresh := RandomToken (S (Draws w)) in
  let w' := snd (Token r w) in
  fst (Token r w)
    = TokenJSON (mkTokenResponse "Bearer" (ScopeRequested request) access (Some refresh)) ∧
  (∃ t, carries t access (ScopeRequested request) (Request_ClientUUID request)
                (Request_AccountUUID request) ∧
        AccessTokens (db w') = <[access := t]> (AccessTokens (db w))) ∧
  RefreshTokens (db w')
    = <[refresh := mkRefreshToken refresh (ScopeRequested request) (Request_ClientUUID request)
                     (NullString_String (Request_AccountUUID request))]> (RefreshTokens (db w)) ∧
  GetGrantRequest (db w') (Request_Token request) = None ∧
  (∀ (calls : list TokenRequest) r2 body2 client2,
     let w2 := run_Tokens calls w' in
     authenticates r2 body2 w2 client2 →
     Body_GrantType body2 = "authorization_code" →
     Body_Code body2 = Body_Code body →
     Token r2 w2 = (ErrorJSON "Invalid grant code" StatusUnauthorized, w2)).
Proof.
  intros Hauth Hgrant Hreq Hclient Huniq Hacc Href access refresh w'.
  subst access refresh w'.
  rewrite (Token_switch r body w client Hauth), Hgrant. simpl.
  unfold Token_authorization_code. rewrite Hreq.
  rewrite bool_decide_eq_false_2 by (intros Hne; by apply Hne).
  unfold util_RandomToken, ExchangeCodeForTokens, Access_Create, Refresh_Create. simpl.
  rewrite Hacc. simpl. rewrite Href. simpl.
  split; [done|]. split; [stored_token|]. split; [done|]. split.
  - apply (GetGrantRequest_deleted _ request).
  - intros calls r2 body2 client2. cbv zeta. intros Hauth2 Hgrant2 Hcode2.
    rewrite (Token_switch r2 body2 _ client2 Hauth2), Hgrant2. simpl.
    unfold Token_authorization_code.
    match goal with |- context [GetGrantRequestByCode ?d ?c] =>
      replace (GetGrantRequestByCode d c) with (@None GrantRequest); [done|] end.
    symmetry. apply GetGrantRequestByCode_None. rewrite Hcode2.
    apply run_Tokens_requests_Forall. simpl.
    apply (code_gone_after_delete (db w) _ request Huniq Hreq).
Qed.

(** [Token] deletes no access token and overwrites none. *)
Lemma Token_access_grows r w :
  AccessTokens (db w) ⊆ AccessTokens (db (snd (Token r w))).
Proof.
  unfold Token. unfold_token.
  repeat (case_match; simpl in *; simplify_eq; try done); by apply insert_subseteq.
Qed.

Lemma run_Tokens_access_grows (calls : list TokenRequest) w :
  AccessTokens (db w) ⊆ AccessTokens (db (run_Tokens calls w)).
Proof.
  revert w. induction calls as [|r calls IH]; intros w; simpl; [done|].
  etrans; [apply (Token_access_grows r)|apply IH].
Qed.

(** The access token of a token response was in no record before the call. *)
Lemma Token_access_new r w (resp : tokenResponse) :
  fst (Token r w) = TokenJSON resp → AccessTokens (db w) !! AccessToken_ resp = None.
Proof.
  unfold Token. unfold_token.
  repeat (case_match; simpl in *; simplify_eq; try done); by intros [= <-].
Qed.

(** C3. A refresh_token exchange by the client of the refresh token (the
    drawn token string not being taken) creates one access token with the
    refresh token's scope, account and client; the refresh tokens are left as
    they were, so the refresh token still resolves; and the access token of
    any later successful exchange is a different one. *)
Theorem Token_refresh_not_rotated r body w client (refresh : RefreshToken) :
  authenticates r body w client →
  Body_GrantType body = "refresh_token" →
  GetRefreshToken (db w) (Body_RefreshToken body) = Some refresh →
  Refresh_ClientUUID refresh = Client_UUID client →
  AccessTokens (db w) !! RandomToken (Draws w) = None →
  let tok := RandomToken (Draws w) in
  let w' := snd (Token r w) in
  fst (Token r w) = TokenJSON (mkTokenResponse "Bearer" (Refresh_Scope refresh) tok None) ∧
  (∃ t, carries t tok (Refresh_Scope refresh) (Refresh_ClientUUID refresh)
                (Some (Refresh_AccountUUID refresh)) ∧
        AccessTokens (db w') = <[tok := t]> (AccessTokens (db w))) ∧
  RefreshTokens (db w') = RefreshTokens (db w) ∧
  GetRefreshToken (db w') (Body_RefreshToken body) = Some refresh ∧
  (∀ (calls : list TokenRequest) r2 (resp2 : tokenResponse),
     fst (Token r2 (run_Tokens calls w')) = TokenJSON resp2 → AccessToken_ resp2 ≠ tok).
Proof.
  intros Hauth Hgrant Href Hclient Hfresh tok w'.
  assert (Hrun : Token r w
    = (TokenJSON (mkTokenResponse "Bearer" (Refresh_Scope refresh) tok None),
       mkWorld (set_AccessTokens (insert tok (mkAccessToken tok (Refresh_Scope refresh) zero_time
                   (Refresh_ClientUUID refresh) (Some (Refresh_AccountUUID refresh)))) (db w))
         (tokens_store w) (now w) (S (Draws w)))).
  { rewrite (Token_switch r body w client Hauth), Hgrant. simpl.
    unfold Token_refresh_token. rewrite Href.
    rewrite bool_decide_eq_false_2 by (intros Hne; by apply Hne).
    unfold util_RandomToken, Access_Create. simpl. by rewrite Hfresh. }
  subst w'. rewrite Hrun. simpl.
  split; [done|]. split; [stored_token|]. split; [done|]. split; [done|].
  intros calls r2 resp2 Hresp2 Heq.
  apply Token_access_new in Hresp2.
  match type of Hresp2 with AccessTokens (db (run_Tokens calls ?w1)) !! _ = None =>
    pose proof (run_Tokens_access_grows calls w1) as Hgrow end.
  rewrite map_subseteq_spec in Hgrow.
  rewrite Heq in Hresp2. erewrite Hgrow in Hresp2; [done|].
  simpl. apply lookup_insert_eq.
Qed.




End token_exchange.

Section token_exchange_runs.
Import util data web exchange fixtures.

Lemma Token_code_client_mismatch_witness :
  let body := mkTokenBody "authorization_code" "" "" "" grantCodeAlice "" "" "" in
  let r := mkTokenRequest ("wb", "secret-wb", true) (inr body) in
  fst (Token (H := testOracle) r testWorld) = ErrorJSON "Invalid grant code" StatusUnauthorized ∧
  GetGrantRequest (db (snd (Token (H := testOracle) r testWorld))) (Request_Token requestAlice)
  = None.
Proof.
  intros body r.
  pose proof (Token_code_client_mismatch (H := testOracle) r body testWorld
                loadedWB requestAlice) as Hw.
  destruct Hw as (Hresp & Hgone & _).
  - repeat split; vm_compute; reflexivity.
  - reflexivity.
  - vm_compute; reflexivity.
  - vm_compute; discriminate.
  - split; assumption.
Defined.

Lemma Token_code_exchange_once_witness :
  let body := mkTokenBody "authorization_code" "" "" "" grantCodeAlice "" "" "" in
  let r := mkTokenRequest ("gin", "secret", true) (inr body) in
  fst (Token (H := testOracle) r testWorld)
    = TokenJSON (mkTokenResponse "Bearer" {["repo-read"; "repo-write"]} "AKQ2XTR9"
                   (Some "BKQ2XTR9")) ∧
  GetGrantRequest (db (snd (Token (H := testOracle) r testWorld))) "U7JIKKYI" = None.
Proof.
  intros body r.
  pose proof (Token_code_exchange_once (H := testOracle) r body testWorld loadedGin
                requestAlice) as Hw.
  destruct Hw as (Hresp & _ & _ & Hgone & _).
  - repeat split; vm_compute; reflexivity.
  - reflexivity.
  - vm_compute; reflexivity.
  - reflexivity.
  - apply (bool_decide_unpack _). vm_compute. exact I.
  - vm_compute; reflexivity.
  - vm_compute; reflexivity.
  - split; assumption.
Defined.

Lemma Token_refresh_not_rotated_witness :
  let body := mkTokenBody "refresh_token" "gin" "secret" "" "" refreshTokenAlice "" "" in
  let r := mkTokenRequest ("", "", false) (inr body) in
  fst (Token (H := testOracle) r testWorld)
    = TokenJSON (mkTokenResponse "Bearer" {["repo-read"; "account-read"]} "AKQ2XTR9" None) ∧
  RefreshTokens (db (snd (Token (H := testOracle) r testWorld))) = RefreshTokens testDb.
Proof.
  intros body r.
  pose proof (Token_refresh_not_rotated (H := testOracle) r body testWorld loadedGin
                (mkRefreshToken refreshTokenAlice {["repo-read"; "account-read"]}
                   uuidClientGin uuidAlice)) as Hw.
  destruct Hw as (Hresp & _ & Hkept & _).
  - repeat split; vm_compute; reflexivity.
  - reflexivity.
  - vm_compute; reflexivity.
  - reflexivity.
  - vm_compute; reflexivity.
  - split; assumption.
Defined.

End token_exchange_runs.

Section consent.
Import util data web ledger exchange fixtures.
Context `{Oracle}.

Implicit Types (w : World) (request : GrantRequest) (client : Client).

(** Finishing a request writes to [GrantRequests] and [AccessTokens] only. *)
Lemma finishCodeRequest_approvals request w :
  ClientApprovals (db (snd (finishCodeRequest request w))) = ClientApprovals (db w).
Proof.
  unfold finishCodeRequest, Request_Update, util_RandomToken. simpl.
  by case_bool_decide.
Qed.

Lemma finishImplicitRequest_approvals request w :
  ClientApprovals (db (snd (finishImplicitRequest request w))) = ClientApprovals (db w).
Proof.
  unfold finishImplicitRequest, Request_Delete, Access_Create, util_RandomToken. simpl.
  by destruct (AccessTokens (db w) !! RandomToken (Draws w)).
Qed.

Lemma finishCodeRequest_answer request w (resp : Response) w' :
  finishCodeRequest request w = (Return resp, w') → ∃ loc, resp = Redirect loc StatusFound.
Proof.
  unfold finishCodeRequest, Request_Update, util_RandomToken. simpl.
  case_bool_decide; intros [= <- <-]; eauto.
Qed.

Lemma finishImplicitRequest_answer request w (resp : Response) w' :
  finishImplicitRequest request w = (Return resp, w') → ∃ loc, resp = Redirect loc StatusFound.
Proof.
  unfold finishImplicitRequest, Request_Delete, Access_Create, util_RandomToken. simpl.
  destruct (AccessTokens (db w) !! RandomToken (Draws w)); intros [= <- <-]; eauto.
Qed.

Lemma finishCodeRequest_fresh request w :
  fresh_token (RandomToken (Draws w)) (db w) →
  ∃ loc w', finishCodeRequest request w = (Return (Redirect loc StatusFound), w').
Proof.
  intros (_ & _ & Hcode). unfold finishCodeRequest, Request_Update, util_RandomToken. simpl.
  rewrite bool_decide_eq_false_2; [eauto|].
  rewrite Exists_exists. intros (q & Hq & _ & _ & Hc).
  rewrite Forall_forall in Hcode. by apply (Hcode q Hq).
Qed.

Lemma finishImplicitRequest_fresh request w :
  fresh_token (RandomToken (Draws w)) (db w) →
  ∃ loc w', finishImplicitRequest request w = (Return (Redirect loc StatusFound), w').
Proof.
  intros (Hacc & _ & _).
  unfold finishImplicitRequest, Request_Delete, Access_Create, util_RandomToken. simpl.
  rewrite Hacc. eauto.
Qed.

(** After [client.Approve] with the requested scope the request is approved. *)
Lemma IsApproved_after_Approve (d : Database) request client (account : string) :
  Request_Client d request = Some client →
  Request_AccountUUID request = Some account →
  CheckScope d (ScopeRequested request) = true →
  IsApproved (snd (data.Approve client account (ScopeRequested request) d)) request = true.
Proof.
  intros Hclient Hacc Hscope. rewrite Approve_valid by done. simpl.
  unfold IsApproved.
  replace (Request_Client _ request) with (Some client) by done.
  case_decide; [done|]. rewrite Hacc. unfold ApprovalForAccount. simpl.
  rewrite lookup_insert_eq. simpl. apply IsSuperset_true. unfold Difference. set_solver.
Qed.

(** C6. For an authenticated grant request, [Approve] answers "Requested
    scope was not approved" and changes nothing when the scope the user
    approved does not cover (requested scope − client whitelist); when it
    does, every run that ends in a response is a redirect and leaves, in the
    approval of (client, account), the earlier approval joined with the full
    requested scope; and such a run exists when the requested scope is valid
    and the drawn token string is not taken. *)
Theorem Approve_records_requested_scope (param : ApproveForm) w request client (account : string) :
  GetGrantRequest (db w) (Form_RequestID param) = Some request →
  Request_AccountUUID request = Some account →
  Request_Client (db w) request = Some client →
  let scopeApproved := NewStringSet (Form_Scope param) in
  let scopeRequired := ScopeRequested request ∖ ScopeWhitelist client in
  (¬ scopeRequired ⊆ scopeApproved →
     web.Approve param w
     = (Return (ErrorHTML "Requested scope was not approved" StatusUnauthorized), w)) ∧
  (scopeRequired ⊆ scopeApproved →
     (∀ (resp : Response) w',
        web.Approve param w = (Return resp, w') →
        approved_scope (db w') (Client_UUID client) account
        = approved_scope (db w) (Client_UUID client) account ∪ ScopeRequested request ∧
        ScopeRequested request ⊆ approved_scope (db w') (Client_UUID client) account ∧
        ∃ loc, resp = Redirect loc StatusFound) ∧
     (CheckScope (db w) (ScopeRequested request) = true →
      fresh_token (RandomToken (Draws w)) (db w) →
      ∃ loc w', web.Approve param w = (Return (Redirect loc StatusFound), w'))).
Proof.
  intros Hreq Hacc Hclient scopeApproved scopeRequired.
  unfold web.Approve. rewrite Hreq, Hacc, Hclient. simpl.
  fold scopeApproved. unfold Difference. fold scopeRequired. split.
  - intros Hsub. apply IsSuperset_false in Hsub. by rewrite Hsub.
  - intros Hsub. apply IsSuperset_true in Hsub. rewrite Hsub. simpl.
    destruct (CheckScope (db w) (ScopeRequested request)) eqn:Hscope.
    + pose proof (IsApproved_after_Approve (db w) request client account Hclient Hacc Hscope)
        as Happroved.
      rewrite Approve_valid in Happroved |- * by done. cbn [snd] in Happroved.
      set (d1 := set_ClientApprovals _ (db w)) in *.
      set (w1 := with_db w d1).
      rewrite Happroved. cbn [negb].
      assert (Hledger : approved_scope (db w1) (Client_UUID client) account
                        = approved_scope (db w) (Client_UUID client) account
                          ∪ ScopeRequested request).
      { subst w1 d1. simpl. rewrite approved_scope_insert. by rewrite decide_True. }
      split.
      * intros resp w' Hrun.
        assert (Hkeep : ClientApprovals (db w') = ClientApprovals (db w1)
                        ∧ ∃ loc, resp = Redirect loc StatusFound).
        { case_bool_decide.
          - split; [|by eapply finishCodeRequest_answer].
            pose proof (finishCodeRequest_approvals request w1) as Hk. by rewrite Hrun in Hk.
          - split; [|by eapply finishImplicitRequest_answer].
            pose proof (finishImplicitRequest_approvals request w1) as Hk. by rewrite Hrun in Hk. }
        destruct Hkeep as [Hkeep Hloc].
        assert (Hsame : approved_scope (db w') (Client_UUID client) account
                        = approved_scope (db w1) (Client_UUID client) account).
        { unfold approved_scope. by rewrite Hkeep. }
        rewrite Hsame, Hledger. split; [done|]. split; [set_solver|done].
      * intros _ Hfresh.
        assert (Hfresh1 : fresh_token (RandomToken (Draws w1)) (db w1)) by done.
        case_bool_decide.
        -- by apply finishCodeRequest_fresh.
        -- by apply finishImplicitRequest_fresh.
    + rewrite Approve_invalid by done. simpl. split; [intros resp w' [=]|done].
Qed.

End consent.

Section consent_runs.
Import util data web ledger exchange fixtures.

Lemma Approve_records_requested_scope_witness :
  ScopeRequested requestBob
  ⊆ approved_scope (db (snd (web.Approve (H := testOracle) approveFormBob testWorld)))
      uuidClientGin uuidBob.
Proof.
  pose proof (Approve_records_requested_scope (H := testOracle) approveFormBob testWorld
                requestBob loadedGin uuidBob) as Hw.
  destruct Hw as (_ & Hok).
  - vm_compute; reflexivity.
  - reflexivity.
  - vm_compute; reflexivity.
  - destruct Hok as (Hrun & _).
    + apply (bool_decide_unpack _). vm_compute. exact I.
    + destruct (Hrun (Redirect (ImplicitLocation "https://localhost:8081/login"
                                  {["repo-read"; "account-write"]} "state-2" "AKQ2XTR9")
                        StatusFound)
                  (snd (web.Approve (H := testOracle) approveFormBob testWorld)))
        as (_ & Hsub & _).
      * vm_compute; reflexivity.
      * exact Hsub.
Defined.

End consent_runs.

Section bearer.
Import util data web fixtures.

Implicit Types (o : oauth) (r : Request) (w : World).

(** C9. Every run of [ServeHTTP] is one of three: the request is rejected
    and the world is untouched; the inner handler runs on the untouched
    world, nothing having been inserted; or an entry is inserted for the
    request, the inner handler runs, and, whether it returns or panics, the
    entry is deleted from the map the handler left, so that [OAuthToken]
    finds nothing for the request once [ServeHTTP] is done.  In every case an
    inner handler that leaves [tokens.store] alone leaves, through
    [ServeHTTP], a map without an entry for the request the map it started
    from. *)
Theorem ServeHTTP_releases_entry o r w :
  ((∃ msg, ServeHTTP o r w = (Return (ErrorJSON msg StatusUnauthorized), w))
   ∨ ServeHTTP o r w = handler o r w
   ∨ (∃ info,
        let w1 := with_store w (<[Ptr r := info]> (tokens_store w)) in
        let '(res, w2) := handler o r w1 in
        OAuthToken r w1 = Some info ∧
        ServeHTTP o r w = (res, with_store w2 (delete (Ptr r) (tokens_store w2))) ∧
        OAuthToken r (snd (ServeHTTP o r w)) = None)) ∧
  ((∀ w0, tokens_store (snd (handler o r w0)) = tokens_store w0) →
   OAuthToken r w = None →
   tokens_store (snd (ServeHTTP o r w)) = tokens_store w).
Proof.
  assert (Hbound : ∀ m token,
    let w1 := with_store w (<[Ptr r := mkOAuthInfo m token]> (tokens_store w)) in
    let '(res, w2) := handler o r w1 in
    OAuthToken r w1 = Some (mkOAuthInfo m token) ∧
    serve_bound o r m token w = (res, with_store w2 (delete (Ptr r) (tokens_store w2))) ∧
    OAuthToken r (snd (serve_bound o r m token w)) = None).
  { intros m token w1. unfold serve_bound. fold w1.
    destruct (handler o r w1) as [res w2]. unfold OAuthToken. simpl.
    split; [apply lookup_insert_eq|]. split; [done|apply lookup_delete_eq]. }
  assert (Hclean : ∀ m token,
    (∀ w0, tokens_store (snd (handler o r w0)) = tokens_store w0) →
    OAuthToken r w = None →
    tokens_store (snd (serve_bound o r m token w)) = tokens_store w).
  { intros m token Hframe Hnone. unfold serve_bound.
    match goal with |- context [handler o r ?w1] =>
      specialize (Hframe w1); destruct (handler o r w1) as [res w2] end.
    simpl in *. rewrite Hframe. by rewrite delete_insert_id. }
  unfold ServeHTTP.
  destruct (negb (String.eqb _ "") && strings.HasPrefix _ "Bearer ").
  - destruct (GetAccessToken _ _ _) as [token|].
    + destruct (Permissive o); simpl.
      * split; [|apply Hclean]. right; right. eexists. apply Hbound.
      * destruct (Len _ <? 1)%nat.
        -- split; [left; eauto|done].
        -- split; [|apply Hclean]. right; right. eexists. apply Hbound.
    + destruct (Permissive o); simpl.
      * split; [by right; left|]. intros Hframe _. apply Hframe.
      * split; [left; eauto|done].
  - destruct (Permissive o); simpl.
    + split; [by right; left|]. intros Hframe _. apply Hframe.
    + split; [left; eauto|done].
Qed.

Lemma ServeHTTP_releases_entry_witness :
  ServeHTTP (OAuthHandler ["repo-read"] panicking) requestOfAlice testWorld
  = (Panic "runtime error", testWorld) ∧
  OAuthToken requestOfAlice
    (snd (ServeHTTP (OAuthHandler ["repo-read"] panicking) requestOfAlice testWorld)) = None.
Proof.
  pose proof (ServeHTTP_releases_entry (OAuthHandler ["repo-read"] panicking) requestOfAlice
                testWorld) as [_ Hclean].
  split; [vm_compute; reflexivity|].
  unfold OAuthToken. rewrite Hclean; [reflexivity|reflexivity|reflexivity].
Defined.

(** C10. When the bearer token of the request resolves: in permissive mode
    the inner handler runs on a world in which [OAuthToken] gives the token
    with its whole scope as the match; in the other mode the match is the
    intersection of the token's scope with the required scope, and an empty
    intersection is rejected. *)
Theorem ServeHTTP_permissive_whole_scope o r w (token : AccessToken) :
  let header := Header_Get r "Authorization" in
  header ≠ "" →
  strings.HasPrefix header "Bearer " = true →
  GetAccessToken (now w) (db w) (strings.Trim_space (strings.slice_from 6 header)) = Some token →
  let bound := λ m : StringSet,
    with_store w (<[Ptr r := mkOAuthInfo m token]> (tokens_store w)) in
  (Permissive o = true →
     OAuthToken r (bound (Access_Scope token)) = Some (mkOAuthInfo (Access_Scope token) token) ∧
     fst (ServeHTTP o r w) = fst (handler o r (bound (Access_Scope token)))) ∧
  (Permissive o = false → Access_Scope token ∩ scope o ≠ ∅ →
     OAuthToken r (bound (Access_Scope token ∩ scope o))
       = Some (mkOAuthInfo (Access_Scope token ∩ scope o) token) ∧
     fst (ServeHTTP o r w) = fst (handler o r (bound (Access_Scope token ∩ scope o)))) ∧
  (Permissive o = false → Access_Scope token ∩ scope o = ∅ →
     ServeHTTP o r w = (Return (ErrorJSON "Insufficient scope" StatusUnauthorized), w)).
Proof.
  intros header Hne Hprefix Htoken bound.
  assert (Hentry : ∀ m, OAuthToken r (bound m) = Some (mkOAuthInfo m token)).
  { intros m. unfold OAuthToken, bound. simpl. apply lookup_insert_eq. }
  assert (Hserve : ∀ m, fst (serve_bound o r m token w) = fst (handler o r (bound m))).
  { intros m. unfold serve_bound. fold (bound m). by destruct (handler o r (bound m)). }
  subst header. unfold ServeHTTP.
  apply String.eqb_neq in Hne. rewrite Hne, Hprefix. cbn [negb andb]. rewrite Htoken.
  unfold Intersect.
  split; [|split].
  - intros Hmode. rewrite Hmode. cbn [negb]. split; [apply Hentry|apply Hserve].
  - intros Hmode Hmatch. rewrite Hmode. cbn [negb]. split; [apply Hentry|].
    destruct (Nat.ltb_spec (Len (Access_Scope token ∩ scope o)) 1) as [Hlt|_].
    + destruct Hmatch. apply Len_zero. lia.
    + apply Hserve.
  - intros Hmode Hmatch. rewrite Hmode. cbn [negb]. by rewrite Hmatch.
Qed.

Lemma ServeHTTP_permissive_whole_scope_witness :
  fst (ServeHTTP (OAuthHandlerPermissive probe) requestOfAlice testWorld)
  = Return (Body "whole scope of the token" 200) ∧
  fst (ServeHTTP (OAuthHandler ["repo-read"] probe) requestOfAlice testWorld)
  = Return (Body "part of the scope" 200).
Proof.
  pose proof (λ o, ServeHTTP_permissive_whole_scope o requestOfAlice testWorld
                (mkAccessToken accessTokenAlice {["repo-read"; "repo-write"]} 2000
                   uuidClientGin (Some uuidAlice))) as Hw.
  split.
  - destruct (Hw (OAuthHandlerPermissive probe)) as ((_ & Hrun) & _).
    + vm_compute; discriminate.
    + reflexivity.
    + vm_compute; reflexivity.
    + reflexivity.
    + rewrite Hrun. vm_compute. reflexivity.
  - destruct (Hw (OAuthHandler ["repo-read"] probe)) as (_ & Hpart & _).
    + vm_compute; discriminate.
    + reflexivity.
    + vm_compute; reflexivity.
    + destruct Hpart as (_ & Hrun).
      * reflexivity.
      * apply (bool_decide_unpack _). vm_compute. exact I.
      * rewrite Hrun. vm_compute. reflexivity.
Defined.

End bearer.

(** * Further properties of client.go *)

Section registry_facts.
Import util data ledger registry.

Implicit Types (db : Database) (client : Client) (s : StringSet).

(** X1. In spite of the argument order, [Difference(mainSet, getDiff)] is
    the set difference getDiff − mainSet: the keys of the second set that the
    first does not contain. *)
Theorem Difference_second_minus_first (mainSet getDiff : StringSet) :
  registry.Difference mainSet getDiff = getDiff ∖ mainSet.
Proof.
  unfold registry.Difference, NewStringSet, Contains. apply set_eq. intros k.
  rewrite elem_of_list_to_set, list_elem_of_filter, elem_of_elements, elem_of_difference.
  rewrite bool_decide_eq_false. tauto.
Qed.

Lemma describe_rows_from (rows : list ScopeRow) (names : list string) (desc : gmap string string) :
  foldl (λ acc d, ((fst acc ++ [Row_Name d])%list, <[Row_Name d := Row_Description d]> (snd acc)))
        (names, desc) rows
  = ((names ++ map Row_Name rows)%list,
     foldl (λ m d, <[Row_Name d := Row_Description d]> m) desc rows).
Proof.
  revert names desc. induction rows as [|d rows IH]; intros names desc; simpl.
  - by rewrite app_nil_r.
  - rewrite IH. by rewrite <- app_assoc.
Qed.

Lemma describe_rows_spec (rows : list ScopeRow) :
  describe_rows rows
  = (map Row_Name rows, foldl (λ m d, <[Row_Name d := Row_Description d]> m) ∅ rows).
Proof. unfold describe_rows. by rewrite describe_rows_from. Qed.

(** An entry of a map filled from scope rows is an entry it had or the name
    and description of one of the rows. *)
Lemma foldl_insert_lookup (rows : list ScopeRow) (m0 : gmap string string) (n d : string) :
  foldl (λ m r, <[Row_Name r := Row_Description r]> m) m0 rows !! n = Some d →
  m0 !! n = Some d ∨ ∃ row, row ∈ rows ∧ Row_Name row = n ∧ Row_Description row = d.
Proof.
  revert m0. induction rows as [|r rows IH]; intros m0; simpl; [by left|].
  intros Hl. apply IH in Hl as [Hl|(row & Hin & Hn & Hd)].
  - rewrite lookup_insert in Hl. case_decide as Hk.
    + injection Hl as <-. right. exists r. split; [left|done].
    + by left.
  - right. exists row. split; [by right|done].
Qed.

(** X2. The completeness flag of [DescribeScope] is [CheckScope]; when it is
    set, the returned map has a description for every name of the scope. *)
Theorem DescribeScope_complete_flag db s :
  snd (DescribeScope db s) = CheckScope db s ∧
  (snd (DescribeScope db s) = true →
   ∀ n, n ∈ s → is_Some (fst (DescribeScope db s) !! n)).
Proof.
  unfold DescribeScope, CheckScope. case_decide as Hlen; [done|].
  rewrite describe_rows_spec. simpl. split; [done|].
  intros Hsup n Hn. apply IsSuperset_true in Hsup.
  apply elem_of_dom. rewrite foldl_insert_dom. set_solver.
Qed.

(** X3. [DescribeScope] of the empty scope is the empty map and false.  Of
    any other scope it returns the descriptions of every name of the table
    [ClientScopeProvided], whether the name is in the scope or not: the same
    map for every non-empty scope; each entry comes from a row. *)
Theorem DescribeScope_whole_catalog db s :
  (s = ∅ → DescribeScope db s = (∅, false)) ∧
  (s ≠ ∅ →
   dom (fst (DescribeScope db s)) = NewStringSet (map Row_Name (ClientScopeProvided db)) ∧
   (∀ s', s' ≠ ∅ → fst (DescribeScope db s') = fst (DescribeScope db s)) ∧
   (∀ n d, fst (DescribeScope db s) !! n = Some d →
           ∃ row, row ∈ ClientScopeProvided db ∧ Row_Name row = n ∧ Row_Description row = d)).
Proof.
  unfold DescribeScope. split.
  - intros ->. by rewrite decide_True by by apply Len_zero.
  - intros Hne. rewrite decide_False by by rewrite Len_zero.
    rewrite describe_rows_spec. simpl. split; [|split].
    + rewrite foldl_insert_dom. unfold NewStringSet. set_solver.
    + intros s' Hne'. by rewrite decide_False by by rewrite Len_zero.
    + intros n d Hl. apply foldl_insert_lookup in Hl as [Hl|Hl]; [|done].
      by rewrite lookup_empty in Hl.
Qed.

Lemma find_bool_decide_None {A} (P : A → Prop) `{∀ x, Decision (P x)} (l : list A) :
  find (λ x, bool_decide (P x)) l = None ↔ ∀ x, x ∈ l → ¬ P x.
Proof.
  split.
  - intros Hf x Hx HP. apply list_elem_of_In in Hx.
    pose proof (find_none _ _ Hf x Hx) as Hn. simpl in Hn.
    by rewrite bool_decide_eq_true_2 in Hn.
  - intros Hall. destruct (find _ l) as [x|] eqn:Hf; [|done].
    apply find_some in Hf as [Hx HP]. apply bool_decide_eq_true in HP.
    apply list_elem_of_In in Hx. by destruct (Hall x Hx).
Qed.

Lemma find_bool_decide_Some {A} (P : A → Prop) `{∀ x, Decision (P x)} (l : list A) (x : A) :
  find (λ x, bool_decide (P x)) l = Some x → x ∈ l ∧ P x.
Proof.
  intros Hf. apply find_some in Hf as [Hx HP]. apply bool_decide_eq_true in HP.
  by apply list_elem_of_In in Hx.
Qed.

(** X4. [GetClient] answers with a client of the uuid asked for, and
    [GetClientByName] with one of the name asked for; the provided scope of
    the client is made of the rows of [ClientScopeProvided] with the client's
    uuid, names and descriptions; and there is no answer exactly when no
    client row has the uuid (the name). *)
Theorem GetClient_sound db :
  (∀ uuid client, GetClient db uuid = Some client → Client_UUID client = uuid) ∧
  (∀ name client, GetClientByName db name = Some client → Client_Name client = name) ∧
  (∀ sel client, getClient db sel = Some client →
     ScopeProvided client
     = NewStringSet (map Row_Name (filter (λ r, Row_clientUUID r = Client_UUID client)
                                      (ClientScopeProvided db))) ∧
     ∀ n d, ScopeProvidedMap client !! n = Some d →
            mkScopeRow (Client_UUID client) n d ∈ ClientScopeProvided db) ∧
  (∀ uuid, GetClient db uuid = None ↔ ∀ c, c ∈ Clients db → Client_UUID c ≠ uuid) ∧
  (∀ name, GetClientByName db name = None ↔ ∀ c, c ∈ Clients db → Client_Name c ≠ name).
Proof.
  assert (Hsome : ∀ sel client, getClient db sel = Some client →
            ∃ row, find sel (Clients db) = Some row ∧
                   client = with_ScopeProvidedMap row (ScopeProvidedMap client)).
  { intros sel client. unfold getClient. destruct (find sel (Clients db)) as [row|]; [|done].
    intros [= <-]. eauto. }
  assert (Hnone : ∀ sel, getClient db sel = None ↔ find sel (Clients db) = None).
  { intros sel. unfold getClient. by destruct (find sel (Clients db)). }
  split; [|split; [|split; [|split]]].
  - intros uuid client Hc. apply Hsome in Hc as (row & Hf & ->).
    by apply (find_bool_decide_Some (λ c, Client_UUID c = uuid)) in Hf as [_ Hf].
  - intros name client Hc. apply Hsome in Hc as (row & Hf & ->).
    by apply (find_bool_decide_Some (λ c, Client_Name c = name)) in Hf as [_ Hf].
  - intros sel client Hc. split.
    + apply getClient_catalog in Hc as (row & _ & Huuid & Hcat). by rewrite Huuid.
    + intros n d Hl. unfold getClient in Hc.
      destruct (find sel (Clients db)) as [row|]; [|done]. injection Hc as <-.
      simpl in *. apply foldl_insert_lookup in Hl as [Hl|(r & Hin & <- & <-)].
      * by rewrite lookup_empty in Hl.
      * apply list_elem_of_filter in Hin as [<- Hin]. by destruct r.
  - intros uuid. unfold GetClient. rewrite Hnone.
    apply (find_bool_decide_None (λ c, Client_UUID c = uuid)).
  - intros name. unfold GetClientByName. rewrite Hnone.
    apply (find_bool_decide_None (λ c, Client_Name c = name)).
Qed.

End registry_facts.

Section registry_writes.
Import util data ledger registry.

Implicit Types (db : Database) (client : Client) (s : StringSet).

(** X5. [client.Approve] fails exactly when [CheckScope] rejects the scope
    (so also for the empty scope), with "Invalid scope" and the database as
    it was; when it succeeds the scope is covered by the approval of the
    pair; and it writes nothing but the approval of (client, account): the
    approvals of other pairs and all other tables are as before. *)
Theorem Approve_outcome_and_frame db client (account : string) s :
  let db' := snd (Approve client account s db) in
  (fst (Approve client account s db) = None ↔ CheckScope db s = true) ∧
  (CheckScope db s = false → Approve client account s db = (Some "Invalid scope", db)) ∧
  (CheckScope db s = true → s ⊆ approved_scope db' (Client_UUID client) account) ∧
  (∀ c a, (c, a) ≠ (Client_UUID client, account) →
          ClientApprovals db' !! (c, a) = ClientApprovals db !! (c, a)) ∧
  Clients db' = Clients db ∧ ClientScopeProvided db' = ClientScopeProvided db ∧
  GrantRequests db' = GrantRequests db ∧ AccessTokens db' = AccessTokens db ∧
  RefreshTokens db' = RefreshTokens db ∧ Accounts db' = Accounts db.
Proof.
  intros db'. subst db'. destruct (CheckScope db s) eqn:Hs.
  - rewrite Approve_valid by done. simpl.
    split; [done|]. split; [done|]. split.
    { intros _. rewrite approved_scope_insert, decide_True by done. set_solver. }
    split; [|done]. intros c a Hne. by rewrite lookup_insert_ne.
  - rewrite Approve_invalid by done. simpl.
    split; [split; done|]. by repeat split.
Qed.

Lemma find_snoc {A} (f : A → bool) (l : list A) (x : A) :
  find f (l ++ [x])%list
  = match find f l with
    | Some y => Some y
    | None => if f x then Some x else None
    end.
Proof.
  induction l as [|y l IH]; simpl; [done|]. by destruct (f y).
Qed.

(** X6. [CreateGrantRequest] checks the response type, then the redirect
    URI, then the scope, and on the first check that fails returns that
    error, no request, and leaves the database as it was.  When all three
    pass and the drawn token is not the token of a stored request, the new
    request is stored without account and without exchange code, under the
    client's uuid; it is found under its token, and every lookup of another
    token or of an exchange code answers as before. *)
Theorem CreateGrantRequest_outcome (token : string) client
  (responseType redirectURI state : string) (scope : StringSet) db :
  let run := CreateGrantRequest token client responseType redirectURI state scope db in
  let typeOk := responseType = "code" ∨ responseType = "token" in
  (¬ typeOk → run = (None, Some "Response type expected to be 'code' or 'token'", db)) ∧
  (typeOk → redirectURI ∉ RedirectURIs client →
     run = (None, Some ("Redirect URI invalid: '" +:+ redirectURI +:+ "'"), db)) ∧
  (typeOk → redirectURI ∈ RedirectURIs client → CheckScope db scope = false →
     run = (None, Some "Invalid scope", db)) ∧
  (typeOk → redirectURI ∈ RedirectURIs client → CheckScope db scope = true →
   GetGrantRequest db token = None →
     let request := mkGrantRequest token responseType state None scope redirectURI
                      (Client_UUID client) None in
     fst run = (Some request, None) ∧
     GetGrantRequest (snd run) token = Some request ∧
     (∀ t, t ≠ token → GetGrantRequest (snd run) t = GetGrantRequest db t) ∧
     (∀ c, GetGrantRequestByCode (snd run) c = GetGrantRequestByCode db c)).
Proof.
  intros run typeOk. subst run typeOk. unfold CreateGrantRequest.
  assert (Htype : bool_decide (responseType = "code") || bool_decide (responseType = "token")
                  = true ↔ responseType = "code" ∨ responseType = "token").
  { by rewrite orb_true_iff, !bool_decide_eq_true. }
  destruct (bool_decide (responseType = "code") || bool_decide (responseType = "token"));
    simpl.
  2: { split; [done|]. split; [|split]; intros Hok; apply Htype in Hok; done. }
  pose proof (proj1 Htype eq_refl) as Hok. clear Htype.
  split; [done|]. unfold Contains.
  case_bool_decide as Huri; simpl.
  2: { split; [done|]. split; by intros _ Hin. }
  split; [done|].
  destruct (CheckScope db scope) eqn:Hscope; simpl.
  2: { split; [done|]. by intros _ _ Htrue. }
  split; [done|]. intros _ _ _ Hfree.
  unfold Request_Create, with_Token. simpl. rewrite Hfree. simpl.
  split; [done|]. unfold GetGrantRequest, GetGrantRequestByCode in *. simpl.
  rewrite !find_snoc. rewrite Hfree. simpl.
  rewrite (bool_decide_eq_true_2 (token = token)) by done.
  split; [done|]. split.
  - intros t Hne. rewrite find_snoc. simpl.
    rewrite (bool_decide_eq_false_2 (token = t)) by done. by case_match.
  - intros c. rewrite find_snoc. simpl. by case_match.
Qed.

End registry_writes.

(** * Further properties of oauth.go: from the authorization request to the
    exchange code *)

Section request_rows.
Import util data web registry exchange.

Implicit Types (d : Database) (req : GrantRequest) (rows : list GrantRequest).

Lemma GetGrantRequest_token d (t : string) req :
  GetGrantRequest d t = Some req → req ∈ GrantRequests d ∧ Request_Token req = t.
Proof. apply (find_bool_decide_Some (λ q, Request_Token q = t)). Qed.

(** After the rows of a token have been replaced by [req], the token
    resolves to [req] if it resolved before, and other tokens resolve as
    before. *)
Lemma find_token_replaced req rows (t : string) :
  find (λ q, bool_decide (Request_Token q = t))
    (map (λ q, if bool_decide (Request_Token q = Request_Token req) then req else q) rows)
  = if bool_decide (t = Request_Token req)
    then (λ _, req) <$> find (λ q, bool_decide (Request_Token q = t)) rows
    else find (λ q, bool_decide (Request_Token q = t)) rows.
Proof.
  induction rows as [|q rows IH]; simpl; [by case_bool_decide|].
  rewrite IH. clear IH.
  destruct (decide (t = Request_Token req)) as [->|Hne].
  - rewrite (bool_decide_eq_true_2 (Request_Token req = Request_Token req)) by done.
    destruct (decide (Request_Token q = Request_Token req)) as [Hq|Hq].
    + rewrite !(bool_decide_eq_true_2 (Request_Token q = Request_Token req)) by done.
      by rewrite bool_decide_eq_true_2 by done.
    + by rewrite !(bool_decide_eq_false_2 (Request_Token q = Request_Token req)) by done.
  - rewrite (bool_decide_eq_false_2 (t = Request_Token req)) by done.
    destruct (decide (Request_Token q = Request_Token req)) as [Hq|Hq].
    + rewrite (bool_decide_eq_true_2 (Request_Token q = Request_Token req)) by done.
      rewrite (bool_decide_eq_false_2 (Request_Token req = t)) by done.
      by rewrite (bool_decide_eq_false_2 (Request_Token q = t)) by congruence.
    + by rewrite (bool_decide_eq_false_2 (Request_Token q = Request_Token req)) by done.
Qed.

(** When no row has the code of [req] yet, the code resolves to [req] once
    the rows of its token have been replaced, provided the token had a row. *)
Lemma find_code_replaced req rows (c : string) :
  Code req = Some c →
  Forall (λ q, Code q ≠ Some c) rows →
  find (λ q, bool_decide (Code q = Some c))
    (map (λ q, if bool_decide (Request_Token q = Request_Token req) then req else q) rows)
  = (λ _, req) <$> find (λ q, bool_decide (Request_Token q = Request_Token req)) rows.
Proof.
  intros Hc. induction 1 as [|q rows Hq _ IH]; simpl; [done|].
  destruct (decide (Request_Token q = Request_Token req)) as [Ht|Ht].
  - rewrite !(bool_decide_eq_true_2 (Request_Token q = Request_Token req)) by done.
    by rewrite bool_decide_eq_true_2.
  - rewrite !(bool_decide_eq_false_2 (Request_Token q = Request_Token req)) by done.
    by rewrite bool_decide_eq_false_2.
Qed.

(** [Request_Update] succeeds when no other request has the code of [req]. *)
Lemma Request_Update_ok req d :
  Forall (λ q, Request_Token q ≠ Request_Token req → is_Some (Code req) → Code q ≠ Code req)
    (GrantRequests d) →
  Request_Update req d
  = (None, set_GrantRequests
             (map (λ q, if bool_decide (Request_Token q = Request_Token req) then req else q)) d).
Proof.
  intros Hfree. unfold Request_Update. rewrite bool_decide_eq_false_2; [done|].
  rewrite Exists_exists. intros (q & Hq & Hne & Hsome & Hc).
  rewrite Forall_forall in Hfree. by apply (Hfree q Hq).
Qed.

Lemma Request_Update_ok_unique req d (stored : GrantRequest) :
  codes_unique d →
  GetGrantRequest d (Request_Token req) = Some stored →
  Code req = Code stored →
  Request_Update req d
  = (None, set_GrantRequests
             (map (λ q, if bool_decide (Request_Token q = Request_Token req) then req else q)) d).
Proof.
  intros Hu Hstored Hcode. apply Request_Update_ok, Forall_forall.
  intros q Hq Hne Hsome Hc. apply Hne.
  apply GetGrantRequest_token in Hstored as [Hin <-].
  rewrite codes_unique_spec in Hu. apply (Hu q stored Hq Hin); [|congruence].
  rewrite Hc. done.
Qed.

Lemma Request_Update_ok_fresh req d (c : string) :
  Code req = Some c →
  Forall (λ q, Code q ≠ Some c) (GrantRequests d) →
  Request_Update req d
  = (None, set_GrantRequests
             (map (λ q, if bool_decide (Request_Token q = Request_Token req) then req else q)) d).
Proof.
  intros Hc Hfresh. apply Request_Update_ok. eapply Forall_impl; [exact Hfresh|].
  intros q Hq _ _. by rewrite Hc.
Qed.

(** What [CreateGrantRequest] does when a check fails, and when none does. *)
Lemma CreateGrantRequest_rejects (token : string) (client : Client)
  (responseType redirectURI state : string) (scope : StringSet) d :
  ¬ ((responseType = "code" ∨ responseType = "token") ∧ redirectURI ∈ RedirectURIs client
     ∧ CheckScope d scope = true) →
  ∃ err, CreateGrantRequest token client responseType redirectURI state scope d
         = (None, Some err, d).
Proof.
  intros Hbad. unfold CreateGrantRequest, Contains.
  destruct (decide (responseType = "code" ∨ responseType = "token")) as [Ht|Ht].
  - replace (bool_decide (responseType = "code") || bool_decide (responseType = "token"))
      with true.
    2: { symmetry. apply orb_true_iff. destruct Ht; [left|right]; by apply bool_decide_eq_true. }
    cbn [negb]. destruct (decide (redirectURI ∈ RedirectURIs client)) as [Huri|Huri].
    + rewrite (bool_decide_eq_true_2 _ Huri). cbn [negb].
      destruct (CheckScope d scope) eqn:Hs; cbn [negb]; [|eauto].
      destruct Hbad. by repeat split.
    + rewrite (bool_decide_eq_false_2 _ Huri). cbn [negb]. eauto.
  - replace (bool_decide (responseType = "code") || bool_decide (responseType = "token"))
      with false; [cbn [negb]; eauto|].
    symmetry. apply orb_false_iff. split; apply bool_decide_eq_false; tauto.
Qed.

Lemma CreateGrantRequest_accepts (token : string) (client : Client)
  (responseType redirectURI state : string) (scope : StringSet) d :
  (responseType = "code" ∨ responseType = "token") → redirectURI ∈ RedirectURIs client →
  CheckScope d scope = true → GetGrantRequest d token = None →
  let request := mkGrantRequest token responseType state None scope redirectURI
                   (Client_UUID client) None in
  CreateGrantRequest token client responseType redirectURI state scope d
  = (Some request, None, set_GrantRequests (λ rows, (rows ++ [request])%list) d).
Proof.
  intros Ht Huri Hs Hfree request. unfold CreateGrantRequest, Contains.
  replace (bool_decide (responseType = "code") || bool_decide (responseType = "token"))
    with true.
  2: { symmetry. apply orb_true_iff. destruct Ht; [left|right]; by apply bool_decide_eq_true. }
  rewrite bool_decide_eq_true_2 by done. rewrite Hs. simpl.
  unfold Request_Create. by rewrite Hfree.
Qed.

Lemma GetGrantRequest_appended d req :
  GetGrantRequest d (Request_Token req) = None →
  GetGrantRequest (set_GrantRequests (λ rows, (rows ++ [req])%list) d) (Request_Token req)
  = Some req.
Proof.
  unfold GetGrantRequest. simpl. intros Hfree. rewrite find_snoc, Hfree.
  by rewrite bool_decide_eq_true_2.
Qed.

End request_rows.

Section authorization_flow.
Import util data web registry exchange flow.
Context `{Oracle}.

Implicit Types (w : World) (request : GrantRequest) (client : Client).

(** X7. For a known client, [Authorize] answers 400 and changes nothing
    unless the response type is code or token, the redirect URI is one of
    the client's and the scope passes [CheckScope].  When they do (and the
    drawn token is not taken) it redirects to the login page of the drawn
    token, under which the request is now stored without account and without
    exchange code; [LoginPage] for that token then shows the login form. *)
Theorem Authorize_stores_pending_request (param : AuthorizeQuery) w client :
  GetClientByName (db w) (Query_ClientId param) = Some client →
  let scope := NewStringSet (strings.Split_space (Query_Scope param)) in
  let token := RandomToken (Draws w) in
  let valid := (Query_ResponseType param = "code" ∨ Query_ResponseType param = "token") ∧
               Query_RedirectURI param ∈ RedirectURIs client ∧
               CheckScope (db w) scope = true in
  let w' := snd (Authorize (inr param) w) in
  (¬ valid → ∃ err, Authorize (inr param) w = (Return (Wrote (ErrorHTML err StatusBadRequest)), w)) ∧
  (valid → GetGrantRequest (db w) token = None →
     fst (Authorize (inr param) w)
       = Return (RedirectTo ("/oauth/login_page?request_id=" +:+ token) StatusFound) ∧
     GetGrantRequest (db w') token
       = Some (mkGrantRequest token (Query_ResponseType param) (Query_State param) None scope
                 (Query_RedirectURI param) (Client_UUID client) None) ∧
     LoginPage {[ "request_id" := [token] ]} w'
       = (Return (Page "login.html" (LoginData token)), w')).
Proof.
  intros Hclient scope token valid w'. subst w'. unfold Authorize. rewrite Hclient.
  fold scope. fold token. split.
  - intros Hbad.
    destruct (CreateGrantRequest_rejects token client _ _ (Query_State param) _ _ Hbad)
      as [err ->]. eauto.
  - intros (Htype & Huri & Hscope) Hfree.
    rewrite (CreateGrantRequest_accepts token client _ _ (Query_State param) _ _
               Htype Huri Hscope Hfree).
    simpl. split; [done|].
    set (request := mkGrantRequest token _ _ _ _ _ _ _).
    assert (Hstored : GetGrantRequest
                        (set_GrantRequests (λ rows, (rows ++ [request])%list) (db w)) token
                      = Some request) by apply (GetGrantRequest_appended (db w) request Hfree).
    split; [done|]. unfold LoginPage.
    rewrite bool_decide_eq_false_2 by apply insert_non_empty.
    unfold Values_Get. rewrite lookup_singleton_eq. simpl. by rewrite Hstored.
Qed.

(** X8. With a stored request, [Login] answers an unknown login name and a
    wrong password alike: a redirect back to the login page of the request,
    and nothing is changed. *)
Theorem Login_bad_credentials (param : loginData) w request :
  GetGrantRequest (db w) (Login_RequestID param) = Some request →
  GetAccountByLogin (db w) (Login_Login param) = None ∨
  (∃ account, GetAccountByLogin (db w) (Login_Login param) = Some account ∧
              VerifyPassword account (Login_Password param) = false) →
  Login (inr param) w
  = (Return (RedirectTo ("/oauth/login_page?request_id=" +:+ Login_RequestID param) StatusFound),
     w).
Proof.
  intros Hreq Hbad. unfold Login, login_page. rewrite Hreq.
  apply GetGrantRequest_token in Hreq as [_ ->].
  destruct Hbad as [->|(account & -> & ->)]; done.
Qed.

Lemma IsApproved_requests (f : list GrantRequest → list GrantRequest) (d : Database) request :
  IsApproved (set_GrantRequests f d) request = IsApproved d request.
Proof. reflexivity. Qed.

(** X9. With the right password [Login] writes the account into the stored
    request, whether or not the request had an account before, and touches
    no other request.  If the request is then not approved the answer is the
    redirect to the approve page and nothing else is written; if it is
    approved, [Login] goes on as [finishCodeRequest] or
    [finishImplicitRequest] do on the request with the account.  Exchange
    codes are unique among the stored requests. *)
Theorem Login_attaches_account (param : loginData) w request (account : Account) :
  GetGrantRequest (db w) (Login_RequestID param) = Some request →
  GetAccountByLogin (db w) (Login_Login param) = Some account →
  VerifyPassword account (Login_Password param) = true →
  codes_unique (db w) →
  let request' := with_AccountUUID request (Some (Account_UUID account)) in
  let w1 := with_db w (snd (Request_Update request' (db w))) in
  GetGrantRequest (db w1) (Login_RequestID param) = Some request' ∧
  (∀ t, t ≠ Login_RequestID param → GetGrantRequest (db w1) t = GetGrantRequest (db w) t) ∧
  (IsApproved (db w) request' = false →
     Login (inr param) w
     = (Return (RedirectTo ("/oauth/approve_page?request_id=" +:+ Login_RequestID param)
                  StatusFound), w1)) ∧
  (IsApproved (db w) request' = true →
     Login (inr param) w
     = wrote (if bool_decide (GrantType request = "code") then finishCodeRequest request' w1
              else finishImplicitRequest request' w1)).
Proof.
  intros Hreq Hacc Hpw Huniq request' w1.
  pose proof (GetGrantRequest_token _ _ _ Hreq) as [_ Htoken].
  assert (Hupd : Request_Update request' (db w)
                 = (None, set_GrantRequests
                            (map (λ q, if bool_decide (Request_Token q = Request_Token request')
                                       then request' else q)) (db w))).
  { apply (Request_Update_ok_unique request' (db w) request Huniq); [|done].
    simpl. by rewrite Htoken. }
  subst w1. rewrite Hupd. simpl.
  assert (Hfind : ∀ t, GetGrantRequest
            (set_GrantRequests
               (map (λ q, if bool_decide (Request_Token q = Request_Token request')
                          then request' else q)) (db w)) t
          = if bool_decide (t = Request_Token request')
            then (λ _, request') <$> GetGrantRequest (db w) t
            else GetGrantRequest (db w) t).
  { intros t. apply find_token_replaced. }
  split; [|split; [|split]].
  - rewrite Hfind. simpl. rewrite Htoken, bool_decide_eq_true_2 by done. by rewrite Hreq.
  - intros t Hne. rewrite Hfind. simpl. rewrite Htoken. by rewrite bool_decide_eq_false_2.
  - intros Happroved. unfold Login, approve_page. rewrite Hreq, Hacc, Hpw. simpl.
    fold request'. rewrite Hupd. simpl. rewrite IsApproved_requests, Happroved.
    by rewrite Htoken.
  - intros Happroved. unfold Login. rewrite Hreq, Hacc, Hpw. simpl.
    fold request'. rewrite Hupd. simpl. rewrite IsApproved_requests, Happroved.
    by case_bool_decide.
Qed.

End authorization_flow.

Section finishing.
Import util data web registry exchange flow.
Context `{Oracle}.

Implicit Types (w : World) (request : GrantRequest) (client : Client).

Lemma finishCodeRequest_run request w :
  Forall (λ q, Code q ≠ Some (RandomToken (Draws w))) (GrantRequests (db w)) →
  let request' := with_Code request (Some (RandomToken (Draws w))) in
  finishCodeRequest request w
  = (Return (Redirect (CodeLocation (RedirectURI request) (ScopeRequested request)
                         (State request) (RandomToken (Draws w))) StatusFound),
     mkWorld (set_GrantRequests
                (map (λ q, if bool_decide (Request_Token q = Request_Token request')
                           then request' else q)) (db w))
       (tokens_store w) (now w) (S (Draws w))).
Proof.
  intros Hfresh request'. unfold finishCodeRequest, util_RandomToken. simpl.
  fold request'.
  by rewrite (Request_Update_ok_fresh request' (db w) (RandomToken (Draws w)) eq_refl Hfresh).
Qed.

(** X10. When the drawn code is the code of no stored request,
    [finishCodeRequest] writes it into the stored request of the token and
    redirects to the redirect URI stored with the request, with that code:
    the code of the redirect resolves to the request, the request token
    still does, other requests are untouched, and no access or refresh token
    is created yet. *)
Theorem finishCodeRequest_code_resolves request w (stored : GrantRequest) :
  GetGrantRequest (db w) (Request_Token request) = Some stored →
  let code := RandomToken (Draws w) in
  Forall (λ q, Code q ≠ Some code) (GrantRequests (db w)) →
  let request' := with_Code request (Some code) in
  let w' := snd (finishCodeRequest request w) in
  fst (finishCodeRequest request w)
    = Return (Redirect (CodeLocation (RedirectURI request) (ScopeRequested request)
                          (State request) code) StatusFound) ∧
  GetGrantRequestByCode (db w') code = Some request' ∧
  GetGrantRequest (db w') (Request_Token request) = Some request' ∧
  (∀ t, t ≠ Request_Token request → GetGrantRequest (db w') t = GetGrantRequest (db w) t) ∧
  AccessTokens (db w') = AccessTokens (db w) ∧
  RefreshTokens (db w') = RefreshTokens (db w).
Proof.
  intros Hstored code Hfresh request' w'. subst w'.
  rewrite (finishCodeRequest_run request w Hfresh). simpl. fold code. fold request'.
  split; [done|]. split; [|split; [|split]].
  - unfold GetGrantRequestByCode.
    pose proof (find_code_replaced request' (GrantRequests (db w)) code eq_refl Hfresh) as Hf.
    unfold GetGrantRequest in Hstored. simpl in *. by rewrite Hf, Hstored.
  - unfold GetGrantRequest in *.
    pose proof (find_token_replaced request' (GrantRequests (db w)) (Request_Token request))
      as Hf.
    simpl in *. rewrite Hf, Hstored. by rewrite bool_decide_eq_true_2.
  - intros t Hne. unfold GetGrantRequest.
    pose proof (find_token_replaced request' (GrantRequests (db w)) t) as Hf.
    simpl in *. rewrite Hf. by rewrite bool_decide_eq_false_2.
  - done.
Qed.

(** X11. A code issued by [finishCodeRequest] is redeemed by [Token]: the
    client of the request, presenting the code of the redirect, gets an
    access token and a refresh token of the requested scope, and afterwards
    the code resolves to nothing.  The three drawn strings are not taken. *)
Theorem issued_code_is_redeemed request w (stored : GrantRequest) (r : TokenRequest)
  (body : TokenBody) client :
  GetGrantRequest (db w) (Request_Token request) = Some stored →
  let code := RandomToken (Draws w) in
  let access := RandomToken (S (Draws w)) in
  let refresh := RandomToken (S (S (Draws w))) in
  Forall (λ q, Code q ≠ Some code) (GrantRequests (db w)) →
  AccessTokens (db w) !! access = None →
  RefreshTokens (db w) !! refresh = None →
  let w1 := snd (finishCodeRequest request w) in
  authenticates r body w1 client →
  Body_GrantType body = "authorization_code" →
  Body_Code body = code →
  Client_UUID client = Request_ClientUUID request →
  fst (Token r w1)
    = TokenJSON (mkTokenResponse "Bearer" (ScopeRequested request) access (Some refresh)) ∧
  GetGrantRequestByCode (db (snd (Token r w1))) code = None ∧
  GetGrantRequest (db (snd (Token r w1))) (Request_Token request) = None.
Proof.
  intros Hstored code access refresh Hfresh Hacc Href w1 Hauth Hgrant Hcode Hclient.
  destruct (finishCodeRequest_code_resolves request w stored Hstored Hfresh)
    as (_ & Hbycode & _ & _ & Hacc1 & Href1).
  fold code w1 in Hbycode, Hacc1, Href1.
  assert (Hdraws : Draws w1 = S (Draws w)).
  { subst w1. by rewrite (finishCodeRequest_run request w Hfresh). }
  assert (Hrows : GrantRequests (db w1)
                  = map (λ q, if bool_decide (Request_Token q = Request_Token request)
                              then with_Code request (Some code) else q)
                      (GrantRequests (db w))).
  { subst w1. by rewrite (finishCodeRequest_run request w Hfresh). }
  rewrite (Token_switch r body w1 client Hauth), Hgrant. simpl.
  unfold Token_authorization_code. rewrite Hcode, Hbycode. simpl.
  rewrite bool_decide_eq_false_2 by (intros Hne; by apply Hne).
  unfold util_RandomToken, ExchangeCodeForTokens, Access_Create, Refresh_Create. simpl.
  rewrite Hdraws, Hacc1. fold access. rewrite Hacc. simpl.
  rewrite Href1. fold refresh. rewrite Href. simpl.
  split; [done|]. split.
  - apply GetGrantRequestByCode_None. simpl. rewrite Hrows.
    apply Forall_forall. intros q Hq.
    apply list_elem_of_filter in Hq as [Hne Hq].
    apply list_elem_of_fmap in Hq as (q0 & -> & Hq0).
    case_bool_decide; [done|]. rewrite Forall_forall in Hfresh. by apply Hfresh.
  - apply (GetGrantRequest_deleted _ (with_Code request (Some code))).
Qed.

(** X12. [finishImplicitRequest] deletes the request first: it is gone
    whatever happens next, and no refresh token is written.  If the drawn
    token string is free, one access token of the requested scope, the
    request's client and its account is stored and the redirect carries its
    token string; if it is taken the handler panics, with the request
    already deleted. *)
Theorem finishImplicitRequest_outcome request w :
  let tok := RandomToken (Draws w) in
  let w' := snd (finishImplicitRequest request w) in
  GetGrantRequest (db w') (Request_Token request) = None ∧
  RefreshTokens (db w') = RefreshTokens (db w) ∧
  (AccessTokens (db w) !! tok = None →
     fst (finishImplicitRequest request w)
       = Return (Redirect (ImplicitLocation (RedirectURI request) (ScopeRequested request)
                             (State request) tok) StatusFound) ∧
     ∃ t, carries t tok (ScopeRequested request) (Request_ClientUUID request)
            (Request_AccountUUID request) ∧
          AccessTokens (db w') = <[tok := t]> (AccessTokens (db w))) ∧
  (is_Some (AccessTokens (db w) !! tok) →
     (∃ msg, fst (finishImplicitRequest request w) = Panic msg) ∧
     AccessTokens (db w') = AccessTokens (db w)).
Proof.
  intros tok w'. subst w'.
  pose proof (GetGrantRequest_deleted (db w) request) as Hgone.
  unfold finishImplicitRequest, Request_Delete, Access_Create, util_RandomToken in *.
  simpl in *. fold tok.
  destruct (AccessTokens (db w) !! tok) as [old|] eqn:Hold; simpl.
  - split; [done|]. split; [done|]. split; [done|]. intros _. split; [eauto|done].
  - split; [done|]. split; [done|]. split; [|by intros [? ?]].
    intros _. split; [done|]. eexists. split; [|reflexivity]. by unfold carries.
Qed.

End finishing.

(** * Further properties of oauth.go: the token endpoint *)

Section token_endpoint.
Import util data web exchange.
Context `{Oracle}.

Implicit Types (r : TokenRequest) (body : TokenBody) (w : World) (client : Client).

Ltac unfold_grants :=
  unfold Token, Token_authorization_code, Token_refresh_token, Token_password,
    Token_client_credentials, ExchangeCodeForTokens, Access_Create, Refresh_Create,
    Request_Delete, Refresh_Delete, util_RandomToken, with_db in *.

(** X13. [Token] answers an unknown client and a wrong secret alike, with
    "Wrong client id or client secret", before it looks at the grant type,
    and changes nothing. *)
Theorem Token_client_check r body w :
  Form r = inr body →
  GetClientByName (db w) (fst (credentials r body)) = None ∨
  (∃ client, GetClientByName (db w) (fst (credentials r body)) = Some client ∧
             snd (credentials r body) ≠ Client_Secret client) →
  Token r w = (ErrorJSON "Wrong client id or client secret" StatusUnauthorized, w).
Proof.
  intros Hform Hbad. unfold Token, credentials in *.
  destruct (BasicAuth r) as [[clientId clientSecret] authorizeOk]. rewrite Hform.
  destruct authorizeOk; simpl in *;
    (destruct Hbad as [->|(client & -> & Hsecret)];
     [done | by rewrite bool_decide_eq_true_2]).
Qed.

(** X14. When the request carries basic-auth credentials, the client id and
    secret of the body are not looked at: [Token] answers the same whatever
    they are. *)
Theorem Token_header_credentials_win (clientId clientSecret : string) body
  (otherId otherSecret : string) w :
  let body' := mkTokenBody (Body_GrantType body) otherId otherSecret (Body_Scope body)
                 (Body_Code body) (Body_RefreshToken body) (Body_Username body)
                 (Body_Password body) in
  Token (mkTokenRequest (clientId, clientSecret, true) (inr body)) w
  = Token (mkTokenRequest (clientId, clientSecret, true) (inr body')) w.
Proof. destruct body. reflexivity. Qed.

(** X15. [Token] writes to the grant requests, the access tokens and the
    refresh tokens only: clients, provided scope, approvals, accounts, the
    map of bound requests and the clock are as before, and at most two
    random tokens are drawn. *)
Theorem Token_frame r w :
  let w' := snd (Token r w) in
  Clients (db w') = Clients (db w) ∧
  ClientScopeProvided (db w') = ClientScopeProvided (db w) ∧
  ClientApprovals (db w') = ClientApprovals (db w) ∧
  Accounts (db w') = Accounts (db w) ∧
  tokens_store w' = tokens_store w ∧
  now w' = now w ∧
  (Draws w ≤ Draws w' ≤ Draws w + 2)%nat.
Proof.
  intros w'. subst w'. unfold_grants.
  repeat (case_match; simpl in *; simplify_eq; try done);
    repeat split; try done; simpl; lia.
Qed.

Lemma run_Tokens_codes_unique (calls : list TokenRequest) w :
  codes_unique (db w) → codes_unique (db (run_Tokens calls w)).
Proof.
  revert w. induction calls as [|r calls IH]; intros w Hu; simpl; [done|].
  apply IH. by apply Token_codes_unique.
Qed.

(** X16. Whatever calls of [Token] are made, no access token is deleted or
    overwritten, no grant request is created or altered (every stored
    request was stored before), and exchange codes that were unique stay
    unique. *)
Theorem run_Tokens_keeps (calls : list TokenRequest) w :
  let w' := run_Tokens calls w in
  AccessTokens (db w) ⊆ AccessTokens (db w') ∧
  (∀ q, q ∈ GrantRequests (db w') → q ∈ GrantRequests (db w)) ∧
  (codes_unique (db w) → codes_unique (db w')).
Proof.
  intros w'. subst w'. split; [apply run_Tokens_access_grows|]. split.
  - assert (Hall : Forall (λ q, q ∈ GrantRequests (db w))
                     (GrantRequests (db (run_Tokens calls w)))).
    { apply run_Tokens_requests_Forall. by apply Forall_forall. }
    by rewrite Forall_forall in Hall.
  - apply run_Tokens_codes_unique.
Qed.

(** X17. A refresh token presented by a client that is not its own is
    deleted, with the answer of an unknown refresh token and without minting
    anything; afterwards it is "Invalid refresh token" for every client, its
    own included.  The record is stored under its own token string. *)
Theorem foreign_client_burns_refresh_token r body w client (refresh : RefreshToken) :
  authenticates r body w client →
  Body_GrantType body = "refresh_token" →
  GetRefreshToken (db w) (Body_RefreshToken body) = Some refresh →
  Refresh_Token refresh = Body_RefreshToken body →
  Refresh_ClientUUID refresh ≠ Client_UUID client →
  let w' := snd (Token r w) in
  fst (Token r w) = ErrorJSON "Invalid refresh token" StatusUnauthorized ∧
  GetRefreshToken (db w') (Body_RefreshToken body) = None ∧
  AccessTokens (db w') = AccessTokens (db w) ∧
  (∀ r2 body2 client2,
     authenticates r2 body2 w' client2 →
     Body_GrantType body2 = "refresh_token" →
     Body_RefreshToken body2 = Body_RefreshToken body →
     Token r2 w' = (ErrorJSON "Invalid refresh token" StatusUnauthorized, w')).
Proof.
  intros Hauth Hgrant Href Hkey Hne w'. subst w'.
  rewrite (Token_switch r body w client Hauth), Hgrant. simpl.
  unfold Token_refresh_token. rewrite Href.
  rewrite bool_decide_eq_true_2 by done. simpl.
  assert (Hgone : GetRefreshToken
                    (set_RefreshTokens (delete (Refresh_Token refresh)) (db w))
                    (Body_RefreshToken body) = None).
  { unfold GetRefreshToken. simpl. rewrite Hkey. apply lookup_delete_eq. }
  split; [done|]. split; [done|]. split; [done|].
  intros r2 body2 client2 Hauth2 Hgrant2 Hsame.
  rewrite (Token_switch r2 body2 _ client2 Hauth2), Hgrant2. simpl.
  unfold Token_refresh_token. rewrite Hsame. simpl. by rewrite Hgone.
Qed.

(** X18. In the password grant an unknown user name and a wrong password
    are answered alike, with "Wrong username or password", whatever scope is
    asked, and nothing is changed. *)
Theorem Token_password_bad_credentials r body w client :
  authenticates r body w client →
  Body_GrantType body = "password" →
  GetAccountByLogin (db w) (Body_Username body) = None ∨
  (∃ account, GetAccountByLogin (db w) (Body_Username body) = Some account ∧
              VerifyPassword account (Body_Password body) = false) →
  Token r w = (ErrorJSON "Wrong username or password" StatusUnauthorized, w).
Proof.
  intros Hauth Hgrant Hbad.
  rewrite (Token_switch r body w client Hauth), Hgrant. simpl.
  unfold Token_password. by destruct Hbad as [->|(account & -> & ->)].
Qed.

End token_endpoint.

(** * Further properties of oauth.go: the bearer handler and the approve page *)

Section bearer_modes.
Import util data web.

Implicit Types (o : oauth) (r : Request) (w : World).

(** X19. A handler that is not permissive either answers 401 itself and
    changes nothing, or runs the inner handler with an entry for the
    request: the header starts with "Bearer ", its token resolves and is not
    expired, and the match of the entry is the non-empty intersection of the
    token's scope with the required scope.  It never runs the inner handler
    without an entry. *)
Theorem ServeHTTP_strict o r w :
  Permissive o = false →
  let header := Header_Get r "Authorization" in
  (∃ msg, ServeHTTP o r w = (Return (ErrorJSON msg StatusUnauthorized), w)) ∨
  (∃ token,
     let m := Access_Scope token ∩ scope o in
     let w1 := with_store w (<[Ptr r := mkOAuthInfo m token]> (tokens_store w)) in
     strings.HasPrefix header "Bearer " = true ∧
     AccessTokens (db w) !! strings.Trim_space (strings.slice_from 6 header) = Some token ∧
     (now w < Expires token)%Z ∧
     m ≠ ∅ ∧
     OAuthToken r w1 = Some (mkOAuthInfo m token) ∧
     ServeHTTP o r w = serve_bound o r m token w ∧
     fst (ServeHTTP o r w) = fst (handler o r w1)).
Proof.
  intros Hstrict header. unfold ServeHTTP. fold header. rewrite Hstrict. cbn [negb].
  destruct (negb (String.eqb header "")) eqn:Hempty; cbn [andb]; [|left; eauto].
  destruct (strings.HasPrefix header "Bearer ") eqn:Hprefix; [|left; eauto].
  destruct (GetAccessToken _ _ _) as [token|] eqn:Htoken; [|left; eauto].
  destruct (Nat.ltb_spec (Len (Intersect (Access_Scope token) (scope o))) 1) as [Hlt|Hge];
    [left; eauto|].
  right. exists token. cbv zeta. unfold GetAccessToken in Htoken.
  destruct (AccessTokens (db w) !! _) as [tok|] eqn:Hstored; [|done].
  destruct (Z.ltb_spec (now w) (Expires tok)); [|done]. injection Htoken as ->.
  split; [done|]. split; [done|]. split; [done|]. split.
  { intros Hnone. unfold Intersect in Hge. rewrite Hnone in Hge.
    unfold Len in Hge. rewrite size_empty in Hge. lia. }
  split; [apply lookup_insert_eq|]. split; [done|].
  unfold serve_bound, Intersect. by destruct (handler o r _).
Qed.

(** X20. A permissive handler never answers itself: every run is a run of
    the inner handler, on the untouched world when the header is missing, is
    not a bearer header, or its token does not resolve, and with an entry for
    the request otherwise. *)
Theorem ServeHTTP_permissive_passes o r w :
  Permissive o = true →
  let header := Header_Get r "Authorization" in
  let resolved := GetAccessToken (now w) (db w)
                    (strings.Trim_space (strings.slice_from 6 header)) in
  (header = "" ∨ strings.HasPrefix header "Bearer " = false ∨ resolved = None →
     ServeHTTP o r w = handler o r w) ∧
  (∀ token, header ≠ "" → strings.HasPrefix header "Bearer " = true → resolved = Some token →
     ServeHTTP o r w = serve_bound o r (Access_Scope token) token w).
Proof.
  intros Hmode header resolved. subst resolved. unfold ServeHTTP. fold header.
  rewrite Hmode. cbn [negb]. split.
  - intros [->|[Hprefix|Hnone]].
    + done.
    + rewrite Hprefix. by rewrite andb_false_r.
    + rewrite Hnone. by destruct (_ && _).
  - intros token Hne Hprefix Htoken. apply String.eqb_neq in Hne.
    by rewrite Hne, Hprefix, Htoken.
Qed.

(** X21. [ServeHTTP] writes nothing of its own but the entry of its request:
    what the inner handler leaves alone (the entry of another request, the
    database) is left alone by [ServeHTTP]. *)
Theorem ServeHTTP_writes_own_entry_only o r w :
  (∀ k, k ≠ Ptr r →
     (∀ w0, tokens_store (snd (handler o r w0)) !! k = tokens_store w0 !! k) →
     tokens_store (snd (ServeHTTP o r w)) !! k = tokens_store w !! k) ∧
  ((∀ w0, db (snd (handler o r w0)) = db w0) → db (snd (ServeHTTP o r w)) = db w).
Proof.
  assert (Hentry : ∀ m token k, k ≠ Ptr r →
    (∀ w0, tokens_store (snd (handler o r w0)) !! k = tokens_store w0 !! k) →
    tokens_store (snd (serve_bound o r m token w)) !! k = tokens_store w !! k).
  { intros m token k Hk Hframe. unfold serve_bound.
    match goal with |- context [handler o r ?w1] =>
      specialize (Hframe w1); destruct (handler o r w1) as [res w2] end.
    simpl in *. rewrite lookup_delete_ne by done. rewrite Hframe.
    by rewrite lookup_insert_ne. }
  assert (Hdb : ∀ m token, (∀ w0, db (snd (handler o r w0)) = db w0) →
    db (snd (serve_bound o r m token w)) = db w).
  { intros m token Hframe. unfold serve_bound.
    match goal with |- context [handler o r ?w1] =>
      specialize (Hframe w1); destruct (handler o r w1) as [res w2] end.
    simpl in *. by rewrite Hframe. }
  unfold ServeHTTP. split.
  - intros k Hk Hframe.
    repeat (case_match; simpl; try done); by apply Hentry.
  - intros Hframe.
    repeat (case_match; simpl; try done); by apply Hdb.
Qed.

End bearer_modes.

Section approve_page.
Import util data web ledger registry flow.

Implicit Types (w : World) (request : GrantRequest) (client : Client).

Lemma DescribeScope_run (d : Database) (s : StringSet) :
  s ≠ ∅ →
  DescribeScope d s = (snd (describe_rows (ClientScopeProvided d)), CheckScope d s).
Proof.
  intros Hne. unfold DescribeScope, CheckScope.
  rewrite !decide_False by by rewrite Len_zero.
  by rewrite describe_rows_spec.
Qed.

Lemma DescribeScope_empty (d : Database) : DescribeScope d ∅ = (∅, false).
Proof. unfold DescribeScope. by rewrite decide_True by by apply Len_zero. Qed.

Lemma CheckScope_empty (d : Database) : CheckScope d ∅ = false.
Proof. unfold CheckScope. by rewrite decide_True by by apply Len_zero. Qed.

(** X22. For an authenticated request of a known client, with [remaining]
    the requested scope less the whitelist and less what the account has
    approved: [ApprovePage] panics with "Invalid scope" when nothing remains
    to approve, when [CheckScope] rejects the remaining scope, or when it
    rejects a non-empty approved scope.  Otherwise it shows approve.html,
    and both the scope to add and (when there is an approval) the existing
    scope on it are the descriptions of the whole table
    [ClientScopeProvided].  It changes nothing. *)
Theorem ApprovePage_outcome (query : Values) w request client (account : string) :
  query ≠ ∅ →
  GetGrantRequest (db w) (Values_Get query "request_id") = Some request →
  Request_AccountUUID request = Some account →
  Request_Client (db w) request = Some client →
  let approved := approved_scope (db w) (Client_UUID client) account in
  let remaining := (ScopeRequested request ∖ ScopeWhitelist client) ∖ approved in
  let catalog := snd (describe_rows (ClientScopeProvided (db w))) in
  (remaining = ∅ → ApprovePage query w = (Panic "Invalid scope", w)) ∧
  (CheckScope (db w) remaining = false ∨ (approved ≠ ∅ ∧ CheckScope (db w) approved = false) →
     ApprovePage query w = (Panic "Invalid scope", w)) ∧
  (CheckScope (db w) remaining = true → approved = ∅ ∨ CheckScope (db w) approved = true →
     ApprovePage query w
     = (Return (Page "approve.html"
                  (ApproveData (Client_Name client) catalog
                     (if decide (approved = ∅) then None else Some catalog)
                     (Request_Token request))), w)).
Proof.
  intros Hquery Hreq Hacc Hclient approved remaining catalog.
  assert (Hrun : ApprovePage query w
    = if negb (CheckScope (db w) remaining) then (Panic "Invalid scope", w)
      else if decide (approved = ∅) then
        (Return (Page "approve.html"
                   (ApproveData (Client_Name client) catalog None (Request_Token request))), w)
      else if negb (CheckScope (db w) approved) then (Panic "Invalid scope", w)
      else
        (Return (Page "approve.html"
                   (ApproveData (Client_Name client) catalog (Some catalog)
                      (Request_Token request))), w)).
  { unfold ApprovePage. rewrite bool_decide_eq_false_2 by done.
    rewrite Hreq, Hacc, Hclient. simpl.
    subst remaining approved. unfold approved_scope, ApprovalForAccount, util.Difference.
    destruct (ClientApprovals (db w) !! (Client_UUID client, account)) as [e|]; simpl.
    - destruct (Nat.ltb_spec 0 (Len e)) as [Hpos|Hzero].
      + assert (He : e ≠ ∅) by (intros ->; unfold Len in Hpos; rewrite size_empty in Hpos; lia).
        rewrite decide_False by done. rewrite (DescribeScope_run _ e He).
        destruct (CheckScope (db w) e) eqn:Hce; simpl.
        * destruct (decide (ScopeRequested request ∖ ScopeWhitelist client ∖ e = ∅)) as [->|Hr].
          -- by rewrite DescribeScope_empty, CheckScope_empty.
          -- rewrite (DescribeScope_run _ _ Hr). by repeat case_match.
        * by repeat case_match.
      + assert (He : e = ∅) by (apply Len_zero; lia). subst e.
        rewrite decide_True by done.
        replace (ScopeRequested request ∖ ScopeWhitelist client ∖ ∅)
          with (ScopeRequested request ∖ ScopeWhitelist client) by set_solver.
        destruct (decide (ScopeRequested request ∖ ScopeWhitelist client = ∅)) as [->|Hr].
        * by rewrite DescribeScope_empty, CheckScope_empty.
        * rewrite (DescribeScope_run _ _ Hr). by repeat case_match.
    - rewrite decide_True by done.
      replace (ScopeRequested request ∖ ScopeWhitelist client ∖ ∅)
        with (ScopeRequested request ∖ ScopeWhitelist client) by set_solver.
      destruct (decide (ScopeRequested request ∖ ScopeWhitelist client = ∅)) as [->|Hr].
      + by rewrite DescribeScope_empty, CheckScope_empty.
      + rewrite (DescribeScope_run _ _ Hr). by repeat case_match. }
  rewrite Hrun. split; [|split].
  - intros ->. by rewrite CheckScope_empty.
  - intros [->|[Hne Hbad]]; [done|].
    destruct (CheckScope (db w) remaining); simpl; [|done].
    rewrite decide_False by done. by rewrite Hbad.
  - intros -> [Hempty|Hok]; simpl.
    + by rewrite !decide_True by done.
    + case_decide; [done|]. by rewrite Hok.
Qed.

End approve_page.

Section access_token_store.
Import util data.

(** X23. TestCreateAccessToken and TestGetAccessToken: creating an access
    token under a token string that is not taken succeeds; the token is then
    found, as it was given, as long as it has not expired, and not found
    from its expiry on; other token strings resolve as before. *)
Theorem Access_Create_then_Get (tok : AccessToken) (d : Database) (now : Z) :
  AccessTokens d !! Access_Token tok = None →
  let d' := snd (Access_Create tok d) in
  fst (Access_Create tok d) = None ∧
  ((now < Expires tok)%Z → GetAccessToken now d' (Access_Token tok) = Some tok) ∧
  ((Expires tok ≤ now)%Z → GetAccessToken now d' (Access_Token tok) = None) ∧
  (∀ t, t ≠ Access_Token tok → GetAccessToken now d' t = GetAccessToken now d t).
Proof.
  intros Hfree d'. subst d'. unfold Access_Create, GetAccessToken. rewrite Hfree. simpl.
  rewrite lookup_insert_eq. split; [done|]. split; [|split].
  - intros Hlt. by destruct (Z.ltb_spec now (Expires tok)); [|lia].
  - intros Hge. by destruct (Z.ltb_spec now (Expires tok)); [lia|].
  - intros t Hne. by rewrite lookup_insert_ne.
Qed.

End access_token_store.

(** * The further properties on the test database *)

Section scenarios.
Import util data web ledger registry exchange flow fixtures.

Lemma testDb_codes_unique : codes_unique testDb.
Proof. apply (bool_decide_unpack _). vm_compute. exact I. Defined.

Lemma Authorize_stores_pending_request_witness :
  let param := mkAuthorizeQuery "code" "gin" "https://localhost:8081/login" "state-3"
                 "repo-read repo-write" in
  fst (Authorize (H := testOracle) (inr param) testWorld)
    = Return (RedirectTo "/oauth/login_page?request_id=AKQ2XTR9" StatusFound) ∧
  Request_AccountUUID
    <$> GetGrantRequest (db (snd (Authorize (H := testOracle) (inr param) testWorld))) "AKQ2XTR9"
    = Some None.
Proof.
  intros param.
  pose proof (Authorize_stores_pending_request (H := testOracle) param testWorld loadedGin) as Hw.
  destruct Hw as (_ & Hok); [vm_compute; reflexivity|].
  destruct Hok as (Hresp & Hstored & _).
  - split; [by left|]. split; [|vm_compute; reflexivity].
    apply (bool_decide_unpack _). vm_compute. exact I.
  - vm_compute; reflexivity.
  - split; [exact Hresp|]. vm_compute. reflexivity.
Defined.

Lemma Login_bad_credentials_witness :
  Login (H := testOracle) (inr (mkLoginData "alice" "wrong" "B4LIMIMB")) testWorld
  = (Return (RedirectTo "/oauth/login_page?request_id=B4LIMIMB" StatusFound), testWorld).
Proof.
  apply (Login_bad_credentials (H := testOracle) (mkLoginData "alice" "wrong" "B4LIMIMB")
           testWorld requestBob).
  - vm_compute; reflexivity.
  - right. exists alice. split; vm_compute; reflexivity.
Defined.

Lemma Login_attaches_account_witness :
  let param := mkLoginData "bob" "testtest" "B4LIMIMB" in
  fst (Login (H := testOracle) (inr param) testWorld)
    = Return (RedirectTo "/oauth/approve_page?request_id=B4LIMIMB" StatusFound) ∧
  Request_AccountUUID
    <$> GetGrantRequest (db (snd (Login (H := testOracle) (inr param) testWorld))) "B4LIMIMB"
    = Some (Some uuidBob).
Proof.
  intros param.
  pose proof (Login_attaches_account (H := testOracle) param testWorld requestBob bob) as Hw.
  destruct Hw as (Hstored & _ & Hpage & _).
  - vm_compute; reflexivity.
  - vm_compute; reflexivity.
  - vm_compute; reflexivity.
  - exact testDb_codes_unique.
  - rewrite Hpage by (vm_compute; reflexivity). split; vm_compute; reflexivity.
Defined.

Lemma testDb_code_fresh :
  Forall (λ q, Code q ≠ Some "AKQ2XTR9") (GrantRequests testDb).
Proof. apply (bool_decide_unpack _). vm_compute. exact I. Defined.

Lemma finishCodeRequest_code_resolves_witness :
  GetGrantRequestByCode (db (snd (finishCodeRequest (H := testOracle) requestBob testWorld)))
    "AKQ2XTR9"
  = Some (with_Code requestBob (Some "AKQ2XTR9")).
Proof.
  pose proof (finishCodeRequest_code_resolves (H := testOracle) requestBob testWorld requestBob)
    as Hw.
  destruct Hw as (_ & Hcode & _).
  - vm_compute; reflexivity.
  - exact testDb_code_fresh.
  - exact Hcode.
Defined.

Lemma issued_code_is_redeemed_witness :
  let body := mkTokenBody "authorization_code" "" "" "" "AKQ2XTR9" "" "" "" in
  let r := mkTokenRequest ("gin", "secret", true) (inr body) in
  fst (Token (H := testOracle) r (snd (finishCodeRequest (H := testOracle) requestBob testWorld)))
  = TokenJSON (mkTokenResponse "Bearer" {["repo-read"; "account-write"]} "BKQ2XTR9"
                 (Some "CKQ2XTR9")).
Proof.
  intros body r.
  pose proof (issued_code_is_redeemed (H := testOracle) requestBob testWorld requestBob r body
                loadedGin) as Hw.
  destruct Hw as (Hresp & _).
  - vm_compute; reflexivity.
  - exact testDb_code_fresh.
  - vm_compute; reflexivity.
  - vm_compute; reflexivity.
  - repeat split; vm_compute; reflexivity.
  - reflexivity.
  - reflexivity.
  - reflexivity.
  - exact Hresp.
Defined.

Lemma Token_client_check_witness :
  let body := mkTokenBody "client_credentials" "" "" "repo-read" "" "" "" "" in
  Token (H := testOracle) (mkTokenRequest ("gin", "wrong", true) (inr body)) testWorld
  = (ErrorJSON "Wrong client id or client secret" StatusUnauthorized, testWorld).
Proof.
  intros body.
  apply (Token_client_check (H := testOracle) (mkTokenRequest ("gin", "wrong", true) (inr body))
           body testWorld).
  - reflexivity.
  - right. exists loadedGin. split; [vm_compute; reflexivity|]. vm_compute. discriminate.
Defined.

Lemma foreign_client_burns_refresh_token_witness :
  let body := mkTokenBody "refresh_token" "" "" "" "" refreshTokenAlice "" "" in
  let r := mkTokenRequest ("wb", "secret-wb", true) (inr body) in
  fst (Token (H := testOracle) r testWorld)
    = ErrorJSON "Invalid refresh token" StatusUnauthorized ∧
  GetRefreshToken (db (snd (Token (H := testOracle) r testWorld))) refreshTokenAlice = None.
Proof.
  intros body r.
  pose proof (foreign_client_burns_refresh_token (H := testOracle) r body testWorld loadedWB
                (mkRefreshToken refreshTokenAlice {["repo-read"; "account-read"]}
                   uuidClientGin uuidAlice)) as Hw.
  destruct Hw as (Hresp & Hgone & _).
  - repeat split; vm_compute; reflexivity.
  - reflexivity.
  - vm_compute; reflexivity.
  - reflexivity.
  - vm_compute; discriminate.
  - split; assumption.
Defined.

Lemma Token_password_bad_credentials_witness :
  let body := mkTokenBody "password" "" "" "repo-read" "" "" "alice" "wrong" in
  Token (H := testOracle) (mkTokenRequest ("gin", "secret", true) (inr body)) testWorld
  = (ErrorJSON "Wrong username or password" StatusUnauthorized, testWorld).
Proof.
  intros body.
  apply (Token_password_bad_credentials (H := testOracle)
           (mkTokenRequest ("gin", "secret", true) (inr body)) body testWorld loadedGin).
  - repeat split; vm_compute; reflexivity.
  - reflexivity.
  - right. exists alice. split; vm_compute; reflexivity.
Defined.

Lemma ServeHTTP_strict_witness :
  ∃ msg, ServeHTTP (OAuthHandler ["repo-read"] panicking) (mkRequest 9 ∅) testWorld
         = (Return (ErrorJSON msg StatusUnauthorized), testWorld).
Proof.
  destruct (ServeHTTP_strict (OAuthHandler ["repo-read"] panicking) (mkRequest 9 ∅) testWorld
              eq_refl) as [Hrejected|(token & Hprefix & _)].
  - exact Hrejected.
  - vm_compute in Hprefix. discriminate Hprefix.
Defined.

Lemma ServeHTTP_permissive_passes_witness :
  ServeHTTP (OAuthHandlerPermissive probe) (mkRequest 9 ∅) testWorld
  = probe (mkRequest 9 ∅) testWorld.
Proof.
  apply (ServeHTTP_permissive_passes (OAuthHandlerPermissive probe) (mkRequest 9 ∅) testWorld
           eq_refl).
  left. vm_compute. reflexivity.
Defined.

Lemma ApprovePage_outcome_witness :
  ApprovePage {[ "request_id" := ["B4LIMIMB"] ]} testWorld
  = (Return (Page "approve.html"
               (ApproveData "gin" (snd (describe_rows (ClientScopeProvided testDb))) None
                  "B4LIMIMB")), testWorld).
Proof.
  pose proof (ApprovePage_outcome {[ "request_id" := ["B4LIMIMB"] ]} testWorld requestBob
                loadedGin uuidBob) as Hw.
  destruct Hw as (_ & _ & Hpage).
  - apply insert_non_empty.
  - vm_compute; reflexivity.
  - reflexivity.
  - vm_compute; reflexivity.
  - rewrite Hpage; [reflexivity| vm_compute; reflexivity | left; vm_compute; reflexivity].
Defined.

Lemma Access_Create_then_Get_witness :
  let fresh := mkAccessToken "Q2XT7ZFK" {["foo-read"; "foo-write"]} 44200 uuidClientGin
                 (Some uuidAlice) in
  GetAccessToken 1000 (snd (Access_Create fresh testDb)) "Q2XT7ZFK" = Some fresh.
Proof.
  intros fresh.
  pose proof (Access_Create_then_Get fresh testDb 1000) as Hw.
  destruct Hw as (_ & Hfound & _).
  - vm_compute; reflexivity.
  - apply Hfound. vm_compute. reflexivity.
Defined.

End scenarios.

(** * The direct grants and the scope string they are sent *)

Section direct_grants.
Import util data web exchange wire.
Context `{Oracle}.

Implicit Types (r : TokenRequest) (body : TokenBody) (w : World) (client : Client).







End direct_grants.

Section direct_grant_runs.
Import util data web exchange wire fixtures.



End direct_grant_runs.
